(** * Therapy-analytics dashboard: the filtering and aggregation pipeline

    A shallow embedding of the pure core of [src/app/page.tsx] (the
    [useMemo] bodies [filteredData], [stats], [cumulativeGraphData],
    [programBreakdown], [targetDrillDown], the search lists and option
    lists, and the handlers [toggleFilter] and [handleCardClick]) over the
    data model of [src/lib/mockData.ts], and of the generators of that
    file.

    Modelling conventions.
    - A JS [Date] is its time value, an integer number of milliseconds.
    - Trial counts ([correct], [incorrect]) are natural numbers, as the
      generator produces them; sums of counts are exact.
    - Mastery percentages and the mastery bounds are finite numbers, taken
      as exact rationals.
    - A quotient of two counts is a [JsNumber]: a finite rational, an
      infinity or NaN.  Division by zero follows IEEE 754; the rounding of
      finite binary64 results is not modelled.
    - [Math.random] is an oracle indexed by the number of calls made so
      far.
    - Arrays are lists; an object used as a dictionary is an association
      list in insertion order, which is the order [Object.values] uses for
      keys that are neither array indices nor names inherited from
      [Object.prototype] (month labels and the generated ids, such as
      [p3] and [p3-t2], are of that kind). *)

From Stdlib Require Import List String Ascii Bool ZArith NArith QArith Lia.
From Stdlib Require Import Sorted Permutation DecimalString Qround.
From Stdlib Require DecimalPos DecimalN.
Import ListNotations.

Local Open Scope string_scope.
Local Open Scope list_scope.

(* ================================================================== *)
(** ** Data model ([src/lib/mockData.ts]) *)

Inductive Status := Active | Inactive | Discharged.

Module Client.
Record t := mk {
  id : string;
  name : string;
  age : N;
  diagnosisDate : Z;
  therapist : string;
  status : Status
}.
End Client.

Module Program.
Record t := mk {
  id : string;
  name : string;
  category : string;
  targetCount : N
}.
End Program.

Module Target.
Record t := mk {
  id : string;
  programId : string;
  name : string;
  mastery : Q;
  trials : N;
  successRate : Q
}.
End Target.

Module DataPoint.
Record t := mk {
  date : Z;
  clientId : string;
  programId : string;
  targetId : string;
  correct : N;
  incorrect : N;
  sessionDuration : N
}.
End DataPoint.

(** The four collections exported by the data module. *)
Record Data := {
  clients : list Client.t;
  allPrograms : list Program.t;
  allTargets : list Target.t;
  dataPoints : list DataPoint.t
}.

(** [interface Filters] of the page. *)
Record Interval := { start : Z; end_ : Z }.

Record Filters := {
  clientIds : list string;
  programIds : list string;
  categories : list string;
  therapists : list string;
  dateRange : Interval;
  targetIds : list string;
  minMastery : Q;
  maxMastery : Q
}.

(* ================================================================== *)
(** ** JavaScript primitives used by the page *)

(** [arr.includes(x)] on an array of strings. *)
Definition includes (arr : list string) (x : string) : bool :=
  existsb (String.eqb x) arr.

(** Truthiness of [arr.length]. *)
Definition has_length {A} (arr : list A) : bool :=
  match arr with [] => false | _ :: _ => true end.

(** [a < b] on finite numbers. *)
Definition js_lt (a b : Q) : bool := negb (Qle_bool b a).

(** Modelled from the spec: [isWithinInterval] belongs to the date
    library, which is not part of the sources; section 4.1 gives it as
    membership in [[start, end]], inclusive at both ends. *)
Definition isWithinInterval (d : Z) (i : Interval) : bool :=
  ((start i <=? d) && (d <=? end_ i))%Z.

(** [allTargets.find(t => t.id === id)] and its two siblings. *)
Definition find_target (db : Data) (id : string) : option Target.t :=
  find (fun t => Target.id t =? id) (allTargets db).

Definition find_program (db : Data) (id : string) : option Program.t :=
  find (fun p => Program.id p =? id) (allPrograms db).

Definition find_client (db : Data) (id : string) : option Client.t :=
  find (fun c => Client.id c =? id) (clients db).

(* ================================================================== *)
(** ** Filter Predicate Evaluator ([filteredData]) *)

(** The callback handed to [dataPoints.filter]; every [return false] of
    the source is one [if ... then false]. *)
Definition keep (db : Data) (filters : Filters) (dp : DataPoint.t) : bool :=
  if has_length (clientIds filters)
     && negb (includes (clientIds filters) (DataPoint.clientId dp)) then false else
  if has_length (programIds filters)
     && negb (includes (programIds filters) (DataPoint.programId dp)) then false else
  if has_length (targetIds filters)
     && negb (includes (targetIds filters) (DataPoint.targetId dp)) then false else
  let target := find_target db (DataPoint.targetId dp) in
  if match target with
     | Some target =>
         js_lt (Target.mastery target) (minMastery filters)
         || js_lt (maxMastery filters) (Target.mastery target)
     | None => false
     end then false else
  let program := find_program db (DataPoint.programId dp) in
  if match program with
     | Some program =>
         has_length (categories filters)
         && negb (includes (categories filters) (Program.category program))
     | None => false
     end then false else
  let client := find_client db (DataPoint.clientId dp) in
  if match client with
     | Some client =>
         has_length (therapists filters)
         && negb (includes (therapists filters) (Client.therapist client))
     | None => false
     end then false else
  if negb (isWithinInterval (DataPoint.date dp) (dateRange filters)) then false else
  true.

Definition filteredData (db : Data) (filters : Filters) : list DataPoint.t :=
  filter (keep db filters) (dataPoints db).

(** The same computation as a program over the module state.  The only
    effects the source performs on the exported collections are reads
    ([filter], [find] and [includes] allocate or return, never write), so
    the program is built from [reads] and [ret] alone. *)
Definition Prog (A : Type) : Type := Data -> A * Data.

Definition ret {A} (a : A) : Prog A := fun s => (a, s).

Definition bind {A B} (m : Prog A) (k : A -> Prog B) : Prog B :=
  fun s => let (a, s') := m s in k a s'.

Definition reads {A} (f : Data -> A) : Prog A := fun s => (f s, s).

Notation "x <- m ;; k" := (bind m (fun x => k))
  (at level 61, m at next level, right associativity).

Definition filteredData_prog (filters : Filters) : Prog (list DataPoint.t) :=
  events <- reads dataPoints ;;
  kept <- reads (fun db => filter (keep db filters) events) ;;
  ret kept.

(** *** Specification vocabulary for the filter *)

(** A selection set restricts nothing when empty, otherwise it must
    contain the value. *)
Definition selected (sel : list string) (v : string) : Prop :=
  sel = [] \/ In v sel.

Definition in_mastery_range (filters : Filters) (m : Q) : Prop :=
  (minMastery filters <= m /\ m <= maxMastery filters)%Q.

Definition in_date_range (filters : Filters) (d : Z) : Prop :=
  (start (dateRange filters) <= d /\ d <= end_ (dateRange filters))%Z.

(** All facet predicates of section 4.1 for one event. *)
Definition facets_hold (db : Data) (filters : Filters) (dp : DataPoint.t) : Prop :=
  selected (clientIds filters) (DataPoint.clientId dp)
  /\ selected (programIds filters) (DataPoint.programId dp)
  /\ selected (targetIds filters) (DataPoint.targetId dp)
  /\ (forall t, find_target db (DataPoint.targetId dp) = Some t ->
        in_mastery_range filters (Target.mastery t))
  /\ (forall p, find_program db (DataPoint.programId dp) = Some p ->
        selected (categories filters) (Program.category p))
  /\ (forall c, find_client db (DataPoint.clientId dp) = Some c ->
        selected (therapists filters) (Client.therapist c))
  /\ in_date_range filters (DataPoint.date dp).

(** Order-preserving subsequence. *)
Inductive subseq {A} : list A -> list A -> Prop :=
| subseq_nil : subseq [] []
| subseq_skip x l1 l2 : subseq l1 l2 -> subseq l1 (x :: l2)
| subseq_take x l1 l2 : subseq l1 l2 -> subseq (x :: l1) (x :: l2).

(* ================================================================== *)
(** ** A small data set

    Two clients, two programs, three targets and four sessions, in the
    shape the generator produces; the first session is the one of the
    scenarios of section 8 (2024-03-01, eight correct, two incorrect). *)

Definition ms_2024_03_01 : Z := 1709251200000.
Definition ms_2024_04_15 : Z := 1713139200000.
Definition ms_2024_05_20 : Z := 1716163200000.
Definition ms_2024_01_01 : Z := 1704067200000.
Definition ms_2024_12_01 : Z := 1733011200000.

Definition demo_clients : list Client.t :=
  [ Client.mk "c1" "Emma Johnson" 6 1577836800000 "Dr. Sarah Mitchell" Active;
    Client.mk "c2" "Liam Smith" 8 1609459200000 "Dr. Emily Chen" Active ].

Definition demo_programs : list Program.t :=
  [ Program.mk "p1" "Requesting" "Communication" 12;
    Program.mk "p3" "Social Greetings" "Social Skills" 8 ].

Definition demo_targets : list Target.t :=
  [ Target.mk "p1-t1" "p1" "Request for water" (171 # 2) 120 (171 # 2);
    Target.mk "p1-t2" "p1" "Request for snack" (40 # 1) 75 (40 # 1);
    Target.mk "p3-t1" "p3" "Wave hello" (625 # 10) 90 (625 # 10) ].

Definition demo_events : list DataPoint.t :=
  [ DataPoint.mk ms_2024_03_01 "c1" "p1" "p1-t1" 8 2 30;
    DataPoint.mk ms_2024_04_15 "c1" "p1" "p1-t2" 3 7 25;
    DataPoint.mk ms_2024_04_15 "c2" "p3" "p3-t1" 5 5 20;
    DataPoint.mk ms_2024_05_20 "c1" "p1" "p1-t1" 9 1 40 ].

Definition demo : Data :=
  {| clients := demo_clients; allPrograms := demo_programs;
     allTargets := demo_targets; dataPoints := demo_events |}.

(** The default Filter Specification, with the window fixed to the span
    of the generated data. *)
Definition default_filters : Filters :=
  {| clientIds := []; programIds := []; categories := []; therapists := [];
     dateRange := {| start := ms_2024_01_01; end_ := ms_2024_12_01 |};
     targetIds := []; minMastery := 0; maxMastery := 100 |}.

(** A specification whose mastery bounds are swapped. *)
Definition swapped_mastery : Filters :=
  {| clientIds := []; programIds := []; categories := []; therapists := [];
     dateRange := {| start := ms_2024_01_01; end_ := ms_2024_12_01 |};
     targetIds := []; minMastery := 90; maxMastery := 10 |}.

(* ================================================================== *)
(** ** JavaScript numbers, objects, sets and sorting *)

(** A number that results from arithmetic on counts or time values. *)
Inductive JsNumber :=
| Fin (q : Q)
| PosInf
| NegInf
| NaN.

Definition of_N (n : N) : JsNumber := Fin (inject_Z (Z.of_N n)).
Definition of_Z (z : Z) : JsNumber := Fin (inject_Z z).

(** The infinity with the sign of [q] ([q] is not zero). *)
Definition inf_like (q : Q) : JsNumber :=
  if Qle_bool 0 q then PosInf else NegInf.

Definition js_neg (a : JsNumber) : JsNumber :=
  match a with
  | Fin q => Fin (Qred (- q))
  | PosInf => NegInf
  | NegInf => PosInf
  | NaN => NaN
  end.

(** [a / b]. *)
Definition js_div (a b : JsNumber) : JsNumber :=
  match a, b with
  | NaN, _ | _, NaN => NaN
  | Fin x, Fin y =>
      if Qeq_bool y 0
      then (if Qeq_bool x 0 then NaN else inf_like x)
      else Fin (Qred (x / y))
  | Fin _, _ => Fin 0
  | _, PosInf | _, NegInf => NaN
  | PosInf, Fin y => if Qle_bool 0 y then PosInf else NegInf
  | NegInf, Fin y => if Qle_bool 0 y then NegInf else PosInf
  end.

(** [a * b]. *)
Definition js_mul (a b : JsNumber) : JsNumber :=
  match a, b with
  | NaN, _ | _, NaN => NaN
  | Fin x, Fin y => Fin (Qred (x * y))
  | Fin x, PosInf | PosInf, Fin x => if Qeq_bool x 0 then NaN else inf_like x
  | Fin x, NegInf | NegInf, Fin x => if Qeq_bool x 0 then NaN else js_neg (inf_like x)
  | PosInf, PosInf | NegInf, NegInf => PosInf
  | PosInf, NegInf | NegInf, PosInf => NegInf
  end.

(** [a - b]. *)
Definition js_sub (a b : JsNumber) : JsNumber :=
  match a, b with
  | NaN, _ | _, NaN => NaN
  | Fin x, Fin y => Fin (Qred (x - y))
  | PosInf, PosInf | NegInf, NegInf => NaN
  | PosInf, _ | _, NegInf => PosInf
  | NegInf, _ | _, PosInf => NegInf
  end.

(** [v > 0]. *)
Definition js_gt0 (v : JsNumber) : bool :=
  match v with
  | Fin q => js_lt 0 q
  | PosInf => true
  | NegInf | NaN => false
  end.

Definition digits (n : Z) : string :=
  DecimalString.NilZero.string_of_uint (N.to_uint (Z.to_N n)).

(** [x.toFixed(1)] for [0 <= x]: the integer [n] nearest to [10 x], the
    larger one on a tie, printed with one digit after the point. *)
Definition fixed1 (x : Q) : string :=
  let n := ((2 * 10 * Qnum x + Zpos (Qden x)) / (2 * Zpos (Qden x)))%Z in
  digits (n / 10) ++ "." ++ digits (n mod 10).

(** [x.toFixed(1)].  Beyond 10^21 the method switches to exponent
    notation; percentages stay far below, so that branch is not
    modelled. *)
Definition toFixed1 (x : JsNumber) : string :=
  match x with
  | NaN => "NaN"
  | PosInf => "Infinity"
  | NegInf => "-Infinity"
  | Fin q => if js_lt q 0 then "-" ++ fixed1 (- q) else fixed1 q
  end.

(** A value that is a number or a string. *)
Inductive JsValue :=
| VNum (n : JsNumber)
| VStr (s : string).

(** An object used as a dictionary: own properties in insertion order. *)
Definition Dict (V : Type) : Type := list (string * V).

Definition dict_get {V} (d : Dict V) (key : string) : option V :=
  match find (fun kv => fst kv =? key) d with
  | Some kv => Some (snd kv)
  | None => None
  end.

(** [d[key] = v] for a key that is not yet present. *)
Definition dict_add {V} (d : Dict V) (key : string) (v : V) : Dict V :=
  d ++ [(key, v)].

(** In-place update of the object stored under [key]. *)
Definition dict_update {V} (d : Dict V) (key : string) (f : V -> V) : Dict V :=
  map (fun kv => if fst kv =? key then (fst kv, f (snd kv)) else kv) d.

(** [Object.values(d)]. *)
Definition values {V} (d : Dict V) : list V := map snd d.

(** [new Set(arr)]: distinct values in order of first occurrence. *)
Definition Set_add (s : list string) (x : string) : list string :=
  if includes s x then s else s ++ [x].

Definition Set_of (arr : list string) : list string :=
  fold_left Set_add arr [].

(** [arr.sort(compare)].  The language requires the sort to be stable and
    reads a NaN from the comparator as 0; for a consistent comparator
    the result is then determined, and it is the one a stable insertion
    sort produces. *)
Section Sort.
Context {A : Type} (compare : A -> A -> JsNumber).

Fixpoint sort_insert (x : A) (l : list A) : list A :=
  match l with
  | [] => [x]
  | y :: l' =>
      if js_gt0 (compare x y) then y :: sort_insert x l' else x :: l
  end.

Fixpoint js_sort (l : list A) : list A :=
  match l with
  | [] => []
  | x :: l' => sort_insert x (js_sort l')
  end.
End Sort.

(* ================================================================== *)
(** ** Summary Counter ([stats]) *)

(** The object literal returned by [stats]. *)
Record Stats := {
  activeClients : nat;
  avgAccuracy : JsNumber;
  activePrograms : nat;
  masteredTargets : nat
}.

Definition of_nat (n : nat) : JsNumber := of_Z (Z.of_nat n).

(** [Object.entries] of the returned object. *)
Definition Stats_entries (s : Stats) : Dict JsNumber :=
  [ ("activeClients", of_nat (activeClients s));
    ("avgAccuracy", avgAccuracy s);
    ("activePrograms", of_nat (activePrograms s));
    ("masteredTargets", of_nat (masteredTargets s)) ].

Definition totalTrials_of (filteredData : list DataPoint.t) : N :=
  fold_left (fun sum d => sum + DataPoint.correct d + DataPoint.incorrect d)%N
            filteredData 0%N.

Definition correctTrials_of (filteredData : list DataPoint.t) : N :=
  fold_left (fun sum d => sum + DataPoint.correct d)%N filteredData 0%N.

Definition stats (db : Data) (filters : Filters)
    (filteredData : list DataPoint.t) : Stats :=
  let activeClients :=
    if has_length (clientIds filters) then List.length (clientIds filters)
    else List.length (Set_of (map DataPoint.clientId filteredData)) in
  let totalTrials := totalTrials_of filteredData in
  let correctTrials := correctTrials_of filteredData in
  let avgAccuracy :=
    if (0 <? totalTrials)%N
    then js_mul (js_div (of_N correctTrials) (of_N totalTrials)) (Fin 100)
    else Fin 0 in
  let activeProgramsSet := Set_of (map DataPoint.programId filteredData) in
  let activePrograms := List.length activeProgramsSet in
  let targetSet := Set_of (map DataPoint.targetId filteredData) in
  let masteredTargets :=
    List.length
      (filter (fun t => match t with
                        | Some t => Qle_bool 80 (Target.mastery t)
                        | None => false
                        end)
              (map (fun tid => find_target db tid) targetSet)) in
  {| activeClients := activeClients;
     avgAccuracy := avgAccuracy;
     activePrograms := activePrograms;
     masteredTargets := masteredTargets |}.

(* ================================================================== *)
(** ** Monthly Cumulative Reducer ([cumulativeGraphData])

    Two functions of the platform are parameters: the date library's
    [format(d, 'MMM yyyy')] and the engine's [new Date(label).getTime()],
    which is NaN when the engine does not recognise the label. *)

Module Bucket.
Record t := mk { correct : N; incorrect : N; date : string }.
End Bucket.

Module CumPoint.
Record t := mk {
  month : string;
  cumulative : N;
  accuracy : JsValue;
  trials : N
}.
End CumPoint.

Section Calendar.
Variable format_MMM_yyyy : Z -> string.
Variable Date_getTime : string -> JsNumber.

(** The body of the [forEach] that fills [monthlyData]. *)
Definition monthly_step (monthlyData : Dict Bucket.t) (dp : DataPoint.t)
    : Dict Bucket.t :=
  let monthKey := format_MMM_yyyy (DataPoint.date dp) in
  let monthlyData :=
    match dict_get monthlyData monthKey with
    | None => dict_add monthlyData monthKey (Bucket.mk 0 0 monthKey)
    | Some _ => monthlyData
    end in
  dict_update monthlyData monthKey
    (fun b => Bucket.mk (Bucket.correct b + DataPoint.correct dp)
                        (Bucket.incorrect b + DataPoint.incorrect dp)
                        (Bucket.date b)).

Definition monthlyData_of (filteredData : list DataPoint.t) : Dict Bucket.t :=
  fold_left monthly_step filteredData [].

Definition compare_months (a b : Bucket.t) : JsNumber :=
  js_sub (Date_getTime (Bucket.date a)) (Date_getTime (Bucket.date b)).

(** The final [map]; the two running totals it closes over are passed
    along explicitly. *)
Fixpoint running (cumulativeCorrect cumulativeIncorrect : N)
    (sorted : list Bucket.t) : list CumPoint.t :=
  match sorted with
  | [] => []
  | item :: rest =>
      let cumulativeCorrect := (cumulativeCorrect + Bucket.correct item)%N in
      let cumulativeIncorrect := (cumulativeIncorrect + Bucket.incorrect item)%N in
      let total := (cumulativeCorrect + cumulativeIncorrect)%N in
      CumPoint.mk (Bucket.date item) cumulativeCorrect
        (if (0 <? total)%N
         then VStr (toFixed1 (js_mul (js_div (of_N cumulativeCorrect) (of_N total))
                                     (Fin 100)))
         else VNum (Fin 0))
        total
      :: running cumulativeCorrect cumulativeIncorrect rest
  end.

Definition cumulativeGraphData (filteredData : list DataPoint.t)
    : list CumPoint.t :=
  let monthlyData := monthlyData_of filteredData in
  let sorted := js_sort compare_months (values monthlyData) in
  running 0 0 sorted.
End Calendar.

(* ================================================================== *)
(** ** Program Breakdown Reducer ([programBreakdown]) *)

Module ProgramStat.
Record t := mk { correct : N; incorrect : N; program : string }.
End ProgramStat.

Module ProgramRow.
Record t := mk {
  correct : N;
  incorrect : N;
  program : string;
  accuracy : string;
  total : N
}.
End ProgramRow.

(** [((correct / (correct + incorrect)) * 100).toFixed(1)], the
    expression shared by the two ranked reducers. *)
Definition accuracy_of (correct incorrect : N) : string :=
  toFixed1 (js_mul (js_div (of_N correct) (of_N (correct + incorrect))) (Fin 100)).

Definition program_step (db : Data) (programStats : Dict ProgramStat.t)
    (dp : DataPoint.t) : Dict ProgramStat.t :=
  match find_program db (DataPoint.programId dp) with
  | None => programStats
  | Some program =>
      let programStats :=
        match dict_get programStats (Program.id program) with
        | None => dict_add programStats (Program.id program)
                    (ProgramStat.mk 0 0 (Program.name program))
        | Some _ => programStats
        end in
      dict_update programStats (Program.id program)
        (fun s => ProgramStat.mk
                    (ProgramStat.correct s + DataPoint.correct dp)
                    (ProgramStat.incorrect s + DataPoint.incorrect dp)
                    (ProgramStat.program s))
  end.

Definition programBreakdown (db : Data) (filteredData : list DataPoint.t)
    : list ProgramRow.t :=
  let programStats := fold_left (program_step db) filteredData [] in
  js_sort (fun a b => js_sub (of_N (ProgramRow.total b)) (of_N (ProgramRow.total a)))
    (map (fun item =>
            ProgramRow.mk (ProgramStat.correct item) (ProgramStat.incorrect item)
              (ProgramStat.program item)
              (accuracy_of (ProgramStat.correct item) (ProgramStat.incorrect item))
              (ProgramStat.correct item + ProgramStat.incorrect item))
         (values programStats)).

(* ================================================================== *)
(** ** Target Drill-Down Reducer ([targetDrillDown]) *)

Module TargetStat.
Record t := mk {
  id : string;
  name : string;
  programId : string;
  mastery : Q;
  correct : N;
  incorrect : N;
  sessions : N
}.
End TargetStat.

Module TargetRow.
Record t := mk {
  id : string;
  name : string;
  programId : string;
  mastery : Q;
  correct : N;
  incorrect : N;
  sessions : N;
  accuracy : string;
  total : N;
  program : string
}.
End TargetRow.

(** Truthiness of the drill-down state, a [string | null]: [null] and the
    empty string are falsy. *)
Definition truthy (drillDownTarget : option string) : bool :=
  match drillDownTarget with
  | None => false
  | Some s => negb (s =? "")
  end.

Definition same_target (drillDownTarget : option string) (d : DataPoint.t) : bool :=
  match drillDownTarget with
  | Some s => DataPoint.targetId d =? s
  | None => false
  end.

Definition target_step (db : Data) (targetStats : Dict TargetStat.t)
    (dp : DataPoint.t) : Dict TargetStat.t :=
  match find_target db (DataPoint.targetId dp) with
  | None => targetStats
  | Some target =>
      let targetStats :=
        match dict_get targetStats (Target.id target) with
        | None => dict_add targetStats (Target.id target)
                    (TargetStat.mk (Target.id target) (Target.name target)
                       (Target.programId target) (Target.mastery target) 0 0 0)
        | Some _ => targetStats
        end in
      dict_update targetStats (Target.id target)
        (fun s => TargetStat.mk (TargetStat.id s) (TargetStat.name s)
                    (TargetStat.programId s) (TargetStat.mastery s)
                    (TargetStat.correct s + DataPoint.correct dp)
                    (TargetStat.incorrect s + DataPoint.incorrect dp)
                    (TargetStat.sessions s + 1))
  end.

Definition targetDrillDown (db : Data) (drillDownTarget : option string)
    (filteredData : list DataPoint.t) : list TargetRow.t :=
  let relevantData :=
    if truthy drillDownTarget
    then filter (same_target drillDownTarget) filteredData
    else filteredData in
  let targetStats := fold_left (target_step db) relevantData [] in
  js_sort (fun a b => js_sub (of_N (TargetRow.total b)) (of_N (TargetRow.total a)))
    (map (fun item =>
            TargetRow.mk (TargetStat.id item) (TargetStat.name item)
              (TargetStat.programId item) (TargetStat.mastery item)
              (TargetStat.correct item) (TargetStat.incorrect item)
              (TargetStat.sessions item)
              (accuracy_of (TargetStat.correct item) (TargetStat.incorrect item))
              (TargetStat.correct item + TargetStat.incorrect item)
              (match find_program db (TargetStat.programId item) with
               | Some p => Program.name p
               | None => ""
               end))
         (values targetStats)).

(* ================================================================== *)
(** ** Facet toggle ([toggleFilter])

    Every call site passes one of the five list-valued keys. *)

Inductive FacetKey :=
| K_clientIds
| K_programIds
| K_categories
| K_therapists
| K_targetIds.

(** [prev[key]]. *)
Definition facet (key : FacetKey) (prev : Filters) : list string :=
  match key with
  | K_clientIds => clientIds prev
  | K_programIds => programIds prev
  | K_categories => categories prev
  | K_therapists => therapists prev
  | K_targetIds => targetIds prev
  end.

(** [{ ...prev, [key]: updated }]. *)
Definition with_facet (prev : Filters) (key : FacetKey) (updated : list string)
    : Filters :=
  {| clientIds := match key with K_clientIds => updated | _ => clientIds prev end;
     programIds := match key with K_programIds => updated | _ => programIds prev end;
     categories := match key with K_categories => updated | _ => categories prev end;
     therapists := match key with K_therapists => updated | _ => therapists prev end;
     dateRange := dateRange prev;
     targetIds := match key with K_targetIds => updated | _ => targetIds prev end;
     minMastery := minMastery prev;
     maxMastery := maxMastery prev |}.

Definition toggleFilter (key : FacetKey) (value : string) (prev : Filters)
    : Filters :=
  let current := facet key prev in
  let updated :=
    if includes current value
    then filter (fun v => negb (v =? value)) current
    else current ++ [value] in
  with_facet prev key updated.

(* ================================================================== *)
(** ** Inputs used by the scenarios *)

(** The session of the first scenario of section 8. *)
Definition session_8_2 : DataPoint.t :=
  DataPoint.mk ms_2024_03_01 "c1" "p1" "p1-t1" 8 2 30.

(** A session in which no trial was run. *)
Definition session_0_0 : DataPoint.t :=
  DataPoint.mk ms_2024_03_01 "c1" "p1" "p1-t1" 0 0 30.

(** Two clients selected, one program selected: client c2 has no session
    in program p1. *)
Definition two_clients : Filters :=
  {| clientIds := ["c1"; "c2"]; programIds := ["p1"]; categories := [];
     therapists := [];
     dateRange := {| start := ms_2024_01_01; end_ := ms_2024_12_01 |};
     targetIds := []; minMastery := 0; maxMastery := 100 |}.

(** Sum of a list of counts. *)
Definition N_sum (l : list N) : N := fold_right N.add 0%N l.

(* ================================================================== *)
(** ** A calendar for the scenarios

    The months of 2024 in UTC: the first instant of each month and the
    label [format(d, 'MMM yyyy')] gives to its dates; [demo_format] is
    meant for dates of that year.  [demo_getTime] is an engine that reads
    such a label back as the month's first instant and answers NaN on
    anything else. *)

Definition months_2024 : list (Z * string) :=
  [ (1704067200000, "Jan 2024"); (1706745600000, "Feb 2024");
    (1709251200000, "Mar 2024"); (1711929600000, "Apr 2024");
    (1714521600000, "May 2024"); (1717200000000, "Jun 2024");
    (1719792000000, "Jul 2024"); (1722470400000, "Aug 2024");
    (1725148800000, "Sep 2024"); (1727740800000, "Oct 2024");
    (1730419200000, "Nov 2024"); (1733011200000, "Dec 2024") ]%Z.

Definition demo_format (d : Z) : string :=
  fold_left (fun label m => if (fst m <=? d)%Z then snd m else label)
            months_2024 "Dec 2023".

Definition demo_getTime (label : string) : JsNumber :=
  match find (fun m => snd m =? label) months_2024 with
  | Some m => of_Z (fst m)
  | None => NaN
  end.

(** The order the reducer establishes: both labels are read back as
    dates and the first is not later than the second. *)
Definition chronological (getTime : string -> JsNumber) (p q : CumPoint.t)
    : Prop :=
  exists a b : Q,
    getTime (CumPoint.month p) = Fin a
    /\ getTime (CumPoint.month q) = Fin b
    /\ (a <= b)%Q.

(** Ascending order in a rational key. *)
Definition ascending {A} (key : A -> Q) (x y : A) : Prop := (key x <= key y)%Q.

(** The time a bucket's label is read back as (0 when it is not read). *)
Definition bucket_time (getTime : string -> JsNumber) (b : Bucket.t) : Q :=
  match getTime (Bucket.date b) with
  | Fin t => t
  | _ => 0
  end.

(** Every bucket is stored under its own label. *)
Definition labelled (d : Dict Bucket.t) : Prop :=
  Forall (fun kv => Bucket.date (snd kv) = fst kv) d.

(** Two sessions of one program in consecutive months, the later one
    first in the array. *)
Definition two_months : list DataPoint.t :=
  [ DataPoint.mk ms_2024_04_15 "c1" "p1" "p1-t1" 3 2 30;
    DataPoint.mk ms_2024_03_01 "c1" "p1" "p1-t1" 5 0 30 ].

(* ================================================================== *)
(** ** Facet Option Providers

    [String.prototype.toLowerCase] is a function of the platform and a
    parameter here; [str.includes(sub)] is the substring test. *)

(** [s.includes(sub)] on strings. *)
Fixpoint str_includes (s sub : string) : bool :=
  if String.prefix sub s then true
  else match s with
       | EmptyString => false
       | String _ s' => str_includes s' sub
       end.

Section Search.
Variable toLowerCase : string -> string.

Definition filteredClients (db : Data) (clientSearch : string) : list Client.t :=
  filter (fun c => str_includes (toLowerCase (Client.name c))
                                (toLowerCase clientSearch))
         (clients db).

Definition filteredPrograms (db : Data) (programSearch : string)
    : list Program.t :=
  filter (fun p => str_includes (toLowerCase (Program.name p))
                                (toLowerCase programSearch))
         (allPrograms db).

Definition filteredTargets (db : Data) (filters : Filters)
    (targetSearch : string) : list Target.t :=
  let programTargets :=
    if (0 <? List.length (programIds filters))%nat
    then filter (fun t => includes (programIds filters) (Target.programId t))
                (allTargets db)
    else allTargets db in
  filter (fun t => str_includes (toLowerCase (Target.name t))
                                (toLowerCase targetSearch))
         programTargets.

(** The targets dropdown shows [filteredTargets.slice(0, 50)]. *)
Definition shownTargets (db : Data) (filters : Filters)
    (targetSearch : string) : list Target.t :=
  firstn 50 (filteredTargets db filters targetSearch).
End Search.

Definition uniqueCategories (db : Data) : list string :=
  Set_of (map Program.category (allPrograms db)).

Definition uniqueTherapists (db : Data) : list string :=
  Set_of (map Client.therapist (clients db)).

(* ================================================================== *)
(** ** Page state and its handlers

    The two pieces of state the pipeline reads: the Filter Specification
    and the drill-down selection.  Scrolling the table into view, which
    [handleCardClick] also does, concerns the document only. *)

Module Page.
Record t := mk {
  filters : Filters;
  drillDownTarget : option string
}.
End Page.

Inductive CardType :=
| Card_clients
| Card_accuracy
| Card_programs
| Card_targets.

(** [allTargets.filter(t => t.mastery >= 80).map(t => t.id)]. *)
Definition masteredTargetIds (db : Data) : list string :=
  map Target.id
      (filter (fun t => Qle_bool 80 (Target.mastery t)) (allTargets db)).

Definition handleCardClick (db : Data) (type : CardType) (st : Page.t)
    : Page.t :=
  let st := Page.mk (Page.filters st) None in
  match type with
  | Card_targets =>
      Page.mk (with_facet (Page.filters st) K_targetIds (masteredTargetIds db))
              (Page.drillDownTarget st)
  | _ => st
  end.

(** A click on a row of the drill-down table, and the Clear Selection
    button. *)
Definition selectRow (target : TargetRow.t) (st : Page.t) : Page.t :=
  Page.mk (Page.filters st) (Some (TargetRow.id target)).

Definition clearSelection (st : Page.t) : Page.t :=
  Page.mk (Page.filters st) None.

(** The table the page shows in a given state. *)
Definition drillDownTable (db : Data) (st : Page.t) : list TargetRow.t :=
  targetDrillDown db (Page.drillDownTarget st)
    (filteredData db (Page.filters st)).

(* ================================================================== *)
(** ** Grouping into a dictionary

    The three reducers fill their dictionary with the same loop body:
    classify the event (or skip it), create the entry on first sight,
    then add the event to the entry.  [group_step] is that body with the
    classification and the addition as parameters. *)

Definition group_step {E V} (classify : E -> option (string * V))
    (add : E -> V -> V) (d : Dict V) (e : E) : Dict V :=
  match classify e with
  | None => d
  | Some (key, init) =>
      let d :=
        match dict_get d key with
        | None => dict_add d key init
        | Some _ => d
        end in
      dict_update d key (add e)
  end.

(** What one key's entry goes through while the events are folded. *)
Definition entry_step {E V} (classify : E -> option (string * V))
    (add : E -> V -> V) (key : string) (o : option V) (e : E) : option V :=
  match classify e with
  | None => o
  | Some (k, init) =>
      if k =? key
      then Some (add e (match o with Some v => v | None => init end))
      else o
  end.

Definition classify_program (db : Data) (dp : DataPoint.t)
    : option (string * ProgramStat.t) :=
  match find_program db (DataPoint.programId dp) with
  | None => None
  | Some program =>
      Some (Program.id program, ProgramStat.mk 0 0 (Program.name program))
  end.

Definition add_to_program (dp : DataPoint.t) (s : ProgramStat.t)
    : ProgramStat.t :=
  ProgramStat.mk (ProgramStat.correct s + DataPoint.correct dp)
                 (ProgramStat.incorrect s + DataPoint.incorrect dp)
                 (ProgramStat.program s).

Definition classify_target (db : Data) (dp : DataPoint.t)
    : option (string * TargetStat.t) :=
  match find_target db (DataPoint.targetId dp) with
  | None => None
  | Some target =>
      Some (Target.id target,
            TargetStat.mk (Target.id target) (Target.name target)
              (Target.programId target) (Target.mastery target) 0 0 0)
  end.

Definition add_to_target (dp : DataPoint.t) (s : TargetStat.t) : TargetStat.t :=
  TargetStat.mk (TargetStat.id s) (TargetStat.name s)
    (TargetStat.programId s) (TargetStat.mastery s)
    (TargetStat.correct s + DataPoint.correct dp)
    (TargetStat.incorrect s + DataPoint.incorrect dp)
    (TargetStat.sessions s + 1).

(** The final [map] of the two ranked reducers. *)
Definition program_row (item : ProgramStat.t) : ProgramRow.t :=
  ProgramRow.mk (ProgramStat.correct item) (ProgramStat.incorrect item)
    (ProgramStat.program item)
    (accuracy_of (ProgramStat.correct item) (ProgramStat.incorrect item))
    (ProgramStat.correct item + ProgramStat.incorrect item).

Definition target_row (db : Data) (item : TargetStat.t) : TargetRow.t :=
  TargetRow.mk (TargetStat.id item) (TargetStat.name item)
    (TargetStat.programId item) (TargetStat.mastery item)
    (TargetStat.correct item) (TargetStat.incorrect item)
    (TargetStat.sessions item)
    (accuracy_of (TargetStat.correct item) (TargetStat.incorrect item))
    (TargetStat.correct item + TargetStat.incorrect item)
    (match find_program db (TargetStat.programId item) with
     | Some p => Program.name p
     | None => ""
     end).

(** The sessions of one target, of one program. *)
Definition sessions_of_target (id : string) (l : list DataPoint.t)
    : list DataPoint.t :=
  filter (fun d => DataPoint.targetId d =? id) l.

Definition sessions_of_program (id : string) (l : list DataPoint.t)
    : list DataPoint.t :=
  filter (fun d => DataPoint.programId d =? id) l.

(** Descending order of the rows' totals. *)
Definition program_rank (a b : ProgramRow.t) : Prop :=
  (ProgramRow.total b <= ProgramRow.total a)%N.

Definition target_rank (a b : TargetRow.t) : Prop :=
  (TargetRow.total b <= TargetRow.total a)%N.

(** The entry a target's sessions add up to, and the same for a
    program. *)
Definition target_stat (t : Target.t) (sessions : list DataPoint.t)
    : TargetStat.t :=
  TargetStat.mk (Target.id t) (Target.name t) (Target.programId t)
    (Target.mastery t)
    (N_sum (map DataPoint.correct sessions))
    (N_sum (map DataPoint.incorrect sessions))
    (N.of_nat (List.length sessions)).

Definition program_stat (p : Program.t) (sessions : list DataPoint.t)
    : ProgramStat.t :=
  ProgramStat.mk (N_sum (map DataPoint.correct sessions))
                 (N_sum (map DataPoint.incorrect sessions))
                 (Program.name p).

(** The sessions whose program resolves. *)
Definition with_program (db : Data) (l : list DataPoint.t) : list DataPoint.t :=
  filter (fun d => match find_program db (DataPoint.programId d) with
                   | Some _ => true
                   | None => false
                   end) l.

(** The loop body of [cumulativeGraphData] as an instance of the
    grouping step. *)
Definition classify_month (format_MMM_yyyy : Z -> string) (dp : DataPoint.t)
    : option (string * Bucket.t) :=
  let monthKey := format_MMM_yyyy (DataPoint.date dp) in
  Some (monthKey, Bucket.mk 0 0 monthKey).

Definition add_to_month (dp : DataPoint.t) (b : Bucket.t) : Bucket.t :=
  Bucket.mk (Bucket.correct b + DataPoint.correct dp)
            (Bucket.incorrect b + DataPoint.incorrect dp)
            (Bucket.date b).

(** A percentage: a finite number between 0 and 100. *)
Definition is_percentage (x : JsNumber) : Prop :=
  exists q, x = Fin q /\ (0 <= q /\ q <= 100)%Q.

(** Lower-casing of the ASCII letters, the part of [toLowerCase] that
    matters for the names of the data set; used in the scenarios. *)
Definition ascii_lower (c : ascii) : ascii :=
  let n := nat_of_ascii c in
  if ((65 <=? n) && (n <=? 90))%nat then ascii_of_nat (n + 32) else c.

Fixpoint lower (s : string) : string :=
  match s with
  | EmptyString => EmptyString
  | String c s' => String (ascii_lower c) (lower s')
  end.

(** [sub] occurs in [s]. *)
Definition occurs_in (sub s : string) : Prop :=
  exists pre post : string, s = (pre ++ sub ++ post)%string.

(** A specification narrowed to the sessions of program p1 in spring. *)
Definition spring_p1 : Filters :=
  {| clientIds := []; programIds := ["p1"]; categories := []; therapists := [];
     dateRange := {| start := ms_2024_03_01; end_ := ms_2024_04_15 |};
     targetIds := []; minMastery := 50; maxMastery := 90 |}.

(* ================================================================== *)
(** ** Data generator ([src/lib/mockData.ts])

    [Math.random] is an oracle: [random k] is the number the k-th call
    returns, and a generator threads the number of calls made so far.
    [new Date(year, monthIndex, day)] depends on the time zone of the
    platform and is a parameter.  The decimal constants of the source are
    taken as exact rationals. *)

Module MockData.

Definition clientNames : list string :=
  [ "Emma Johnson"; "Liam Smith"; "Olivia Williams"; "Noah Brown"; "Ava Davis";
    "Ethan Miller"; "Sophia Wilson"; "Mason Moore"; "Isabella Taylor";
    "Lucas Anderson"; "Mia Thomas"; "Oliver Jackson"; "Charlotte White";
    "Elijah Harris"; "Amelia Martin"; "James Thompson"; "Harper Garcia";
    "Benjamin Martinez"; "Evelyn Robinson"; "Alexander Clark" ].

Definition therapists : list string :=
  [ "Dr. Sarah Mitchell"; "Dr. John Peterson"; "Dr. Emily Chen";
    "Dr. Michael Rodriguez"; "Dr. Jessica Lee"; "Dr. David Kim";
    "Dr. Amanda Wilson" ].

Definition programs : list Program.t :=
  [ Program.mk "p1" "Requesting" "Communication" 12;
    Program.mk "p2" "Labeling" "Communication" 15;
    Program.mk "p3" "Social Greetings" "Social Skills" 8;
    Program.mk "p4" "Turn-Taking" "Social Skills" 10;
    Program.mk "p5" "Independent Dressing" "Self-Care" 6;
    Program.mk "p6" "Hand Washing" "Self-Care" 5;
    Program.mk "p7" "On-Task Behavior" "Behavioral" 7;
    Program.mk "p8" "Following Instructions" "Behavioral" 9;
    Program.mk "p9" "Number Recognition" "Academic" 20;
    Program.mk "p10" "Letter Identification" "Academic" 26;
    Program.mk "p11" "Sharing" "Social Skills" 6;
    Program.mk "p12" "Emotion Recognition" "Social Skills" 8 ].

(** [`${i + 1}`] for a loop index [i]. *)
Definition ordinal (i : nat) : string := digits (Z.of_nat i + 1).

Definition targetTemplates : Dict (list string) :=
  [ ("Requesting", ["Request for water"; "Request for snack";
                    "Request for break"; "Request for toy"; "Request for help"]);
    ("Labeling", ["Label colors"; "Label animals"; "Label body parts";
                  "Label objects"; "Label actions"]);
    ("Social Greetings", ["Wave hello"; "Say goodbye";
                          "Eye contact during greeting"; "Respond to name"]);
    ("Turn-Taking", ["Wait for turn"; "Share materials";
                     "Participate in group activity"]);
    ("Independent Dressing", ["Put on shirt"; "Put on pants"; "Put on shoes";
                              "Zip jacket"]);
    ("Hand Washing", ["Turn on water"; "Apply soap"; "Scrub hands"; "Rinse";
                      "Dry hands"]);
    ("On-Task Behavior", ["Sit at table"; "Attend to task"; "Complete task";
                          "Transition appropriately"]);
    ("Following Instructions", ["1-step instruction"; "2-step instruction";
                                "3-step instruction"]);
    ("Number Recognition",
     map (fun i => "Identify " ++ ordinal i)%string (seq 0 20));
    ("Letter Identification",
     map (fun i => "Identify " ++ String (ascii_of_nat (65 + i)) "")%string
         (seq 0 26));
    ("Sharing", ["Share toy"; "Share materials"; "Take turns with peer"]);
    ("Emotion Recognition", ["Happy"; "Sad"; "Angry"; "Surprised"; "Scared";
                             "Excited"]) ].

(** [arr[i]] for a numeric index: [undefined] outside the array. *)
Definition array_at {A} (arr : list A) (i : Z) : option A :=
  if (i <? 0)%Z then None else nth_error arr (Z.to_nat i).

(** [a || b] on a possibly undefined string: the empty string is falsy
    too. *)
Definition or_else (a : option string) (b : string) : string :=
  match a with
  | Some s => if s =? "" then b else s
  | None => b
  end.

(** A computation that calls [Math.random]: from the number of calls made
    before to the result and the number of calls made after. *)
Definition Gen (A : Type) : Type := nat -> A * nat.

Definition gen_ret {A} (a : A) : Gen A := fun k => (a, k).

Definition gen_bind {A B} (m : Gen A) (f : A -> Gen B) : Gen B :=
  fun k => let (a, k') := m k in f a k'.

Notation "x <~ m ;; f" := (gen_bind m (fun x => f))
  (at level 61, m at next level, right associativity).

Section Generator.
Variable random : nat -> Q.
Variable Date_local : Z -> Z -> Z -> Z.

Definition Math_random : Gen Q := fun k => (random k, S k).

(** The loop of [generateTargetsForProgram], from index [i], with [n]
    rounds to go. *)
Fixpoint targets_from (program : Program.t) (templates : list string)
    (i n : nat) : Gen (list Target.t) :=
  match n with
  | O => gen_ret []
  | S n' =>
      r <~ Math_random ;;
      let mastery := (r * 100)%Q in
      r' <~ Math_random ;;
      let target :=
        Target.mk (Program.id program ++ "-t" ++ ordinal i)%string
                  (Program.id program)
                  (or_else (nth_error templates i)
                           ("Target " ++ ordinal i)%string)
                  mastery
                  (Z.to_N (Qfloor (r' * 200) + 50))
                  mastery in
      rest <~ targets_from program templates (S i) n' ;;
      gen_ret (target :: rest)
  end.

Definition generateTargetsForProgram (program : Program.t)
    : Gen (list Target.t) :=
  let templates :=
    match dict_get targetTemplates (Program.name program) with
    | Some l => l
    | None => []
    end in
  targets_from program templates 0 (N.to_nat (Program.targetCount program)).

(** [arr.flatMap(f)] for a callback that calls [Math.random]. *)
Fixpoint flatMap_gen {A B} (f : A -> Gen (list B)) (arr : list A)
    : Gen (list B) :=
  match arr with
  | [] => gen_ret []
  | x :: arr' =>
      ys <~ f x ;;
      rest <~ flatMap_gen f arr' ;;
      gen_ret (ys ++ rest)
  end.

Definition generateTargets : Gen (list Target.t) :=
  flatMap_gen generateTargetsForProgram programs.

(** The callback of [generateClients]; the record has no place in
    [Client.t] when the therapist lookup is [undefined]. *)
Definition client_of (name : string) (i : nat) : Gen (option Client.t) :=
  r1 <~ Math_random ;;
  r2 <~ Math_random ;;
  r3 <~ Math_random ;;
  r4 <~ Math_random ;;
  gen_ret
    (match array_at therapists
             (Qfloor (r4 * inject_Z (Z.of_nat (List.length therapists)))) with
     | Some therapist =>
         Some (Client.mk ("c" ++ ordinal i)%string name
                 (Z.to_N (Qfloor (r1 * 10) + 3))
                 (Date_local (2020 + Qfloor (r2 * 4)) (Qfloor (r3 * 12)) 1)
                 therapist
                 (if (i <? 17)%nat then Active
                  else if (i <? 19)%nat then Inactive else Discharged))
     | None => None
     end).

Fixpoint clients_from (names : list string) (i : nat)
    : Gen (list (option Client.t)) :=
  match names with
  | [] => gen_ret []
  | name :: names' =>
      c <~ client_of name i ;;
      rest <~ clients_from names' (S i) ;;
      gen_ret (c :: rest)
  end.

Definition generateClients : Gen (list (option Client.t)) :=
  clients_from clientNames 0.

(** [new Date(x)] keeps the integral part of [x]. *)
Definition Date_of_number (x : Q) : Z :=
  if Qle_bool 0 x then Qfloor x else Qceiling x.

Definition Math_min (a b : Q) : Q := if Qle_bool a b then a else b.

(** The body of the innermost loop of [generateDataPoints]: one session
    of [target] for [client]; [startDate] and [endDate] are the time
    values of the two dates the function starts with. *)
Definition session_of (startDate endDate : Z) (client : Client.t)
    (program : Program.t) (target : Target.t) : Gen DataPoint.t :=
  r1 <~ Math_random ;;
  let sessionDate :=
    Date_of_number (inject_Z startDate + r1 * inject_Z (endDate - startDate)) in
  let timeProgress :=
    (inject_Z (sessionDate - startDate) / inject_Z (endDate - startDate))%Q in
  let baseSuccessRate := (Target.mastery target / 100)%Q in
  let learningBonus := (timeProgress * (3 # 10))%Q in
  let successProbability :=
    Math_min (95 # 100) (baseSuccessRate + learningBonus) in
  r2 <~ Math_random ;;
  let trials := (Qfloor (r2 * 15) + 5)%Z in
  r3 <~ Math_random ;;
  let correct :=
    Qfloor (inject_Z trials
            * (successProbability + (r3 - (1 # 2)) * (2 # 10))) in
  r4 <~ Math_random ;;
  gen_ret
    (DataPoint.mk sessionDate (Client.id client) (Program.id program)
       (Target.id target)
       (Z.to_N (Z.max 0 (Z.min trials correct)))
       (Z.to_N (trials - Z.max 0 (Z.min trials correct)))
       (Z.to_N (Qfloor (r4 * 30) + 15))).

End Generator.

(** The statement [generateDataPoints] returns with:
    [dataPoints.sort((a, b) => a.date.getTime() - b.date.getTime())]. *)
Definition sort_by_date (dataPoints : list DataPoint.t) : list DataPoint.t :=
  js_sort (fun a b => js_sub (of_Z (DataPoint.date a)) (of_Z (DataPoint.date b)))
          dataPoints.

(** Every call of [Math.random] returns a number of [[0, 1)]. *)
Definition unit_interval (random : nat -> Q) : Prop :=
  forall k, (0 <= random k /\ random k < 1)%Q.

(** A fixed sequence for the scenarios: 0, 1/7, ..., 6/7, 0, ... *)
Definition demo_random (k : nat) : Q := inject_Z (Z.of_nat (k mod 7)) / 7.

(** A stand-in for the local calendar, with years of 365 and months of
    30 days. *)
Definition demo_Date_local (year monthIndex day : Z) : Z :=
  ((year - 1970) * 31536000000 + monthIndex * 2592000000 + day * 86400000)%Z.

End MockData.

(** A list of strings without repetition, as a test. *)
Fixpoint all_distinct (l : list string) : bool :=
  match l with
  | [] => true
  | x :: l' => negb (includes l' x) && all_distinct l'
  end.

(** What the generators promise about one target and one client. *)
Definition target_in_contract (program : Program.t) (t : Target.t) : Prop :=
  Target.programId t = Program.id program
  /\ (0 <= Target.mastery t /\ Target.mastery t < 100)%Q
  /\ Target.successRate t = Target.mastery t
  /\ (50 <= Target.trials t <= 249)%N.

Definition client_in_contract (c : Client.t) : Prop :=
  In (Client.therapist c) MockData.therapists
  /\ (3 <= Client.age c <= 12)%N.

(** The status [generateClients] gives to the client at index [i]. *)
Definition status_at (i : nat) : Status :=
  if (i <? 17)%nat then Active
  else if (i <? 19)%nat then Inactive else Discharged.

(** The ids [generateTargets] produces, program by program. *)
Definition generated_target_ids : list string :=
  flat_map (fun p => map (fun j => (Program.id p ++ "-t" ++ MockData.ordinal j)%string)
                         (seq 0 (N.to_nat (Program.targetCount p))))
           MockData.programs.

(** Chronological order of sessions. *)
Definition not_later (a b : DataPoint.t) : Prop :=
  (DataPoint.date a <= DataPoint.date b)%Z.

(* ================================================================== *)
(** * Theorems *)

(** ** Filter *)

Lemma includes_In (arr : list string) (x : string) :
  includes arr x = true <-> In x arr.
Proof.
  unfold includes. rewrite existsb_exists. split.
  - intros [y [Hy He]]. apply String.eqb_eq in He. now subst.
  - intros H. exists x. split; [assumption | apply String.eqb_refl].
Qed.

Lemma facet_pass (sel : list string) (v : string) :
  has_length sel && negb (includes sel v) = false <-> selected sel v.
Proof.
  unfold selected. destruct sel as [|a sel].
  - simpl. split; auto.
  - change (has_length (a :: sel)) with true. rewrite andb_true_l.
    rewrite negb_false_iff, includes_In. split.
    + intros H. now right.
    + intros [H | H]; [discriminate | assumption].
Qed.

Lemma js_lt_false (a b : Q) : js_lt a b = false <-> (b <= a)%Q.
Proof.
  unfold js_lt. rewrite negb_false_iff. apply Qle_bool_iff.
Qed.

Lemma js_lt_true (a b : Q) : js_lt a b = true <-> (a < b)%Q.
Proof.
  unfold js_lt. rewrite negb_true_iff. split.
  - intros H. apply Qnot_le_lt. intros Hle.
    apply Qle_bool_iff in Hle. congruence.
  - intros H. destruct (Qle_bool b a) eqn:E; [|reflexivity].
    apply Qle_bool_iff in E. exfalso. exact (Qlt_not_le _ _ H E).
Qed.

Lemma mastery_pass (filters : Filters) (m : Q) :
  js_lt m (minMastery filters) || js_lt (maxMastery filters) m = false
  <-> in_mastery_range filters m.
Proof.
  unfold in_mastery_range. rewrite orb_false_iff, !js_lt_false. reflexivity.
Qed.

Lemma isWithinInterval_spec (filters : Filters) (d : Z) :
  isWithinInterval d (dateRange filters) = true <-> in_date_range filters d.
Proof.
  unfold isWithinInterval, in_date_range.
  rewrite andb_true_iff, !Z.leb_le. reflexivity.
Qed.

Lemma guard_pass {A} (o : option A) (b : A -> bool) (P : A -> Prop) :
  (forall a, b a = false <-> P a) ->
  (match o with Some a => b a | None => false end = false
   <-> forall a, o = Some a -> P a).
Proof.
  intros Hb. destruct o as [x|].
  - rewrite Hb. split.
    + intros H a [= <-]. exact H.
    + intros H. now apply H.
  - split; [intros _ a; discriminate | reflexivity].
Qed.

(** One early [return false] of the callback: the condition either fires,
    and the matching facet predicate fails, or the next test is reached. *)
Ltac early_return c :=
  destruct c;
  [ split; [ discriminate | intros Hall; exfalso; intuition discriminate ] | ].

Lemma keep_spec (db : Data) (filters : Filters) (dp : DataPoint.t) :
  keep db filters dp = true <-> facets_hold db filters dp.
Proof.
  pose proof (facet_pass (clientIds filters) (DataPoint.clientId dp)) as H1.
  pose proof (facet_pass (programIds filters) (DataPoint.programId dp)) as H2.
  pose proof (facet_pass (targetIds filters) (DataPoint.targetId dp)) as H3.
  pose proof (guard_pass (find_target db (DataPoint.targetId dp)) _ _
                (fun t => mastery_pass filters (Target.mastery t))) as H4.
  pose proof (guard_pass (find_program db (DataPoint.programId dp)) _ _
                (fun p => facet_pass (categories filters) (Program.category p))) as H5.
  pose proof (guard_pass (find_client db (DataPoint.clientId dp)) _ _
                (fun c => facet_pass (therapists filters) (Client.therapist c))) as H6.
  pose proof (isWithinInterval_spec filters (DataPoint.date dp)) as H7.
  unfold keep, facets_hold. cbv zeta.
  early_return (has_length (clientIds filters)
                && negb (includes (clientIds filters) (DataPoint.clientId dp))).
  early_return (has_length (programIds filters)
                && negb (includes (programIds filters) (DataPoint.programId dp))).
  early_return (has_length (targetIds filters)
                && negb (includes (targetIds filters) (DataPoint.targetId dp))).
  match goal with |- context [if ?c then false else _] => early_return c end.
  match goal with |- context [if ?c then false else _] => early_return c end.
  match goal with |- context [if ?c then false else _] => early_return c end.
  destruct (isWithinInterval (DataPoint.date dp) (dateRange filters)); simpl.
  - intuition.
  - split; [discriminate | intros Hall; exfalso; intuition discriminate].
Qed.

(** C1.  An event of the log is kept by the Filter Predicate Evaluator
    exactly when every facet predicate holds for it: each of the five
    selection sets is empty or contains the event's value, the mastery,
    category and therapist predicates are only demanded when the
    corresponding lookup succeeds, and the date is inside the inclusive
    interval. *)
Theorem filteredData_keeps_iff_facets (db : Data) (filters : Filters)
    (dp : DataPoint.t) :
  In dp (filteredData db filters)
  <-> In dp (dataPoints db) /\ facets_hold db filters dp.
Proof.
  unfold filteredData. rewrite filter_In, keep_spec. reflexivity.
Qed.

(** C2.  With the five selection sets empty, the mastery range equal to
    [0, 100] and a date interval that contains every event's date, the
    filter returns the whole Event Log; the reference table is assumed to
    respect the documented 0-100 range of [Target.mastery]. *)
Theorem filteredData_identity (db : Data) (filters : Filters) :
  clientIds filters = [] ->
  programIds filters = [] ->
  targetIds filters = [] ->
  categories filters = [] ->
  therapists filters = [] ->
  (minMastery filters == 0)%Q ->
  (maxMastery filters == 100)%Q ->
  (forall dp, In dp (dataPoints db) -> in_date_range filters (DataPoint.date dp)) ->
  (forall t, In t (allTargets db) -> (0 <= Target.mastery t <= 100)%Q) ->
  filteredData db filters = dataPoints db.
Proof.
  intros Hc Hp Ht Hcat Hth Hmin Hmax Hdate Hmastery.
  unfold filteredData. apply forallb_filter_id, forallb_forall.
  intros dp Hin. apply keep_spec. unfold facets_hold, selected.
  rewrite Hc, Hp, Ht, Hcat, Hth. repeat split; auto.
  - apply find_some in H. destruct (Hmastery t (proj1 H)) as [Hlo _].
    now rewrite Hmin.
  - apply find_some in H. destruct (Hmastery t (proj1 H)) as [_ Hhi].
    now rewrite Hmax.
  - apply (Hdate dp Hin).
  - apply (Hdate dp Hin).
Qed.

Lemma filteredData_identity_witness :
  filteredData demo default_filters = dataPoints demo.
Proof.
  apply filteredData_identity; try reflexivity.
  - intros dp Hin. unfold in_date_range.
    repeat (destruct Hin as [<- | Hin]; [vm_compute; split; discriminate |]).
    destruct Hin.
  - intros t Hin.
    repeat (destruct Hin as [<- | Hin]; [vm_compute; split; discriminate |]).
    destruct Hin.
Defined.

Lemma filter_subseq {A} (f : A -> bool) (l : list A) : subseq (filter f l) l.
Proof.
  induction l as [|x l IH]; simpl.
  - constructor.
  - destruct (f x); now constructor.
Qed.

(** C3.  The filter's output is an order-preserving subsequence of the
    Event Log, every returned event is an event of the log, and running
    the filter leaves the exported collections as they were. *)
Theorem filteredData_subsequence (db : Data) (filters : Filters) :
  subseq (filteredData db filters) (dataPoints db)
  /\ (forall dp, In dp (filteredData db filters) -> In dp (dataPoints db))
  /\ filteredData_prog filters db = (filteredData db filters, db).
Proof.
  split; [apply filter_subseq | split].
  - intros dp H. apply filter_In in H. tauto.
  - reflexivity.
Qed.

(** C9.  When [minMastery > maxMastery] no mastery lies in the range:
    every event whose target resolves is rejected by the callback and is
    absent from the filter's output. *)
Theorem swapped_mastery_excludes_resolved (db : Data) (filters : Filters)
    (dp : DataPoint.t) (t : Target.t) :
  (maxMastery filters < minMastery filters)%Q ->
  find_target db (DataPoint.targetId dp) = Some t ->
  keep db filters dp = false /\ ~ In dp (filteredData db filters).
Proof.
  intros Hswap Hfind.
  assert (Hk : keep db filters dp = false).
  { destruct (keep db filters dp) eqn:E; [|reflexivity].
    apply keep_spec in E. destruct E as (_ & _ & _ & Hm & _).
    destruct (Hm t Hfind) as [Hlo Hhi]. exfalso.
    apply (Qlt_not_le _ _ Hswap). now apply Qle_trans with (Target.mastery t). }
  split; [exact Hk |].
  intros Hin. apply filter_In in Hin. destruct Hin as [_ Hin]. congruence.
Qed.

Lemma swapped_mastery_excludes_resolved_witness :
  keep demo swapped_mastery (DataPoint.mk ms_2024_03_01 "c1" "p1" "p1-t1" 8 2 30)
    = false
  /\ ~ In (DataPoint.mk ms_2024_03_01 "c1" "p1" "p1-t1" 8 2 30)
          (filteredData demo swapped_mastery).
Proof.
  apply (swapped_mastery_excludes_resolved demo swapped_mastery _
           (Target.mk "p1-t1" "p1" "Request for water" (171 # 2) 120 (171 # 2))).
  - reflexivity.
  - reflexivity.
Defined.

(** ** Summary Counter *)

Lemma Set_add_spec (s : list string) (x y : string) :
  In y (Set_add s x) <-> In y s \/ y = x.
Proof.
  unfold Set_add. destruct (includes s x) eqn:E.
  - apply includes_In in E. split; [tauto | intros [H | ->]; assumption].
  - rewrite in_app_iff. simpl. split.
    + intros [H | [H | []]]; auto.
    + intros [H | H]; auto.
Qed.

Lemma Set_add_NoDup (s : list string) (x : string) :
  NoDup s -> NoDup (Set_add s x).
Proof.
  intros Hs. unfold Set_add. destruct (includes s x) eqn:E; [assumption |].
  assert (Hx : ~ In x s).
  { intros H. apply includes_In in H. congruence. }
  clear E. induction Hs as [|a s Ha Hs IH]; simpl.
  - constructor; [intros [] | constructor].
  - constructor.
    + rewrite in_app_iff. simpl. intros [H | [H | []]]; [tauto |].
      subst. apply Hx. now left.
    + apply IH. intros H. apply Hx. now right.
Qed.

Lemma fold_Set_add (arr acc : list string) :
  NoDup acc ->
  NoDup (fold_left Set_add arr acc)
  /\ forall y, In y (fold_left Set_add arr acc) <-> In y acc \/ In y arr.
Proof.
  revert acc. induction arr as [|x arr IH]; intros acc Hacc; simpl.
  - split; [assumption | intros y; tauto].
  - destruct (IH (Set_add acc x) (Set_add_NoDup acc x Hacc)) as [Hnd Hin].
    split; [assumption |].
    intros y. rewrite Hin, Set_add_spec. intuition.
Qed.

Lemma Set_of_NoDup (arr : list string) : NoDup (Set_of arr).
Proof. apply fold_Set_add. constructor. Qed.

Lemma Set_of_In (arr : list string) (y : string) :
  In y (Set_of arr) <-> In y arr.
Proof.
  unfold Set_of. destruct (fold_Set_add arr [] (NoDup_nil _)) as [_ H].
  rewrite H. simpl. tauto.
Qed.

(** C4.  When [spec.clientIds] is non-empty, [activeClients] is its
    size, whatever the filtered subset contains; when it is empty,
    [activeClients] is the number of distinct client ids occurring in the
    filtered subset. *)
Theorem activeClients_override (db : Data) (filters : Filters)
    (filteredData : list DataPoint.t) :
  (clientIds filters <> [] ->
     activeClients (stats db filters filteredData)
       = List.length (clientIds filters))
  /\ (clientIds filters = [] ->
        exists distinct : list string,
          NoDup distinct
          /\ (forall c, In c distinct <->
                exists d, In d filteredData /\ DataPoint.clientId d = c)
          /\ activeClients (stats db filters filteredData) = List.length distinct).
Proof.
  unfold stats; simpl. split.
  - intros Hne. destruct (clientIds filters); [contradiction | reflexivity].
  - intros ->. simpl.
    exists (Set_of (map DataPoint.clientId filteredData)).
    split; [apply Set_of_NoDup | split; [| reflexivity]].
    intros c. rewrite Set_of_In, in_map_iff. split.
    + intros [d [Hd Hin]]. exists d. tauto.
    + intros [d [Hin Hd]]. exists d. tauto.
Qed.

Lemma activeClients_override_witness :
  activeClients (stats demo two_clients (filteredData demo two_clients)) = 2%nat
  /\ map DataPoint.clientId (filteredData demo two_clients) = ["c1"; "c1"; "c1"]
  /\ exists distinct : list string,
       NoDup distinct
       /\ (forall c, In c distinct <->
             exists d, In d (filteredData demo default_filters)
                       /\ DataPoint.clientId d = c)
       /\ activeClients (stats demo default_filters
                           (filteredData demo default_filters))
          = List.length distinct.
Proof.
  split; [| split].
  - apply (proj1 (activeClients_override demo two_clients
                    (filteredData demo two_clients))).
    discriminate.
  - reflexivity.
  - apply (proj2 (activeClients_override demo default_filters
                    (filteredData demo default_filters))).
    reflexivity.
Defined.

Lemma fold_total (l : list DataPoint.t) (acc : N) :
  fold_left (fun sum d => sum + DataPoint.correct d + DataPoint.incorrect d)%N l acc
  = (acc + N_sum (map (fun d => DataPoint.correct d + DataPoint.incorrect d) l))%N.
Proof.
  revert acc. induction l as [|d l IH]; intros acc; simpl.
  - now rewrite N.add_0_r.
  - rewrite IH. lia.
Qed.

Lemma fold_correct (l : list DataPoint.t) (acc : N) :
  fold_left (fun sum d => sum + DataPoint.correct d)%N l acc
  = (acc + N_sum (map DataPoint.correct l))%N.
Proof.
  revert acc. induction l as [|d l IH]; intros acc; simpl.
  - now rewrite N.add_0_r.
  - rewrite IH. lia.
Qed.

Lemma totalTrials_of_sum (l : list DataPoint.t) :
  totalTrials_of l
  = N_sum (map (fun d => DataPoint.correct d + DataPoint.incorrect d)%N l).
Proof. unfold totalTrials_of. now rewrite fold_total. Qed.

Lemma correctTrials_of_sum (l : list DataPoint.t) :
  correctTrials_of l = N_sum (map DataPoint.correct l).
Proof. unfold correctTrials_of. now rewrite fold_correct. Qed.

Lemma of_N_nonzero (n : N) :
  (0 < n)%N -> Qeq_bool (inject_Z (Z.of_N n)) 0 = false.
Proof.
  intros H. destruct (Qeq_bool _ 0) eqn:E; [| reflexivity].
  apply Qeq_bool_eq in E. unfold Qeq in E. simpl in E. lia.
Qed.

(** The percentage of [correct] among [total > 0] trials is the finite
    number [correct / total * 100]. *)
Lemma percent_finite (correct total : N) :
  (0 < total)%N ->
  exists q, js_mul (js_div (of_N correct) (of_N total)) (Fin 100) = Fin q
            /\ (q == inject_Z (Z.of_N correct) / inject_Z (Z.of_N total) * 100)%Q.
Proof.
  intros H. cbv beta iota delta [of_N js_div].
  rewrite (of_N_nonzero total H). cbv beta iota delta [js_mul].
  eexists. split; [reflexivity |].
  now rewrite !Qred_correct.
Qed.

(** C5 (as stated).  The object returned by [stats] has no [totalTrials]
    and no [correctTrials] property: for the single session with eight
    correct and two incorrect trials, reading [totalTrials] does not
    give 10 and reading [correctTrials] does not give 8. *)
Lemma stats_output_lacks_trial_totals :
  dict_get (Stats_entries (stats demo default_filters [session_8_2]))
           "totalTrials" = None
  /\ dict_get (Stats_entries (stats demo default_filters [session_8_2]))
              "correctTrials" = None
  /\ ~ (dict_get (Stats_entries (stats demo default_filters [session_8_2]))
                 "totalTrials" = Some (of_N 10)
        /\ dict_get (Stats_entries (stats demo default_filters [session_8_2]))
                    "correctTrials" = Some (of_N 8)).
Proof.
  split; [reflexivity | split; [reflexivity |]].
  intros [H _]. discriminate H.
Qed.

(** C5 (amended).  [stats] computes [totalTrials] as the sum of
    correct + incorrect and [correctTrials] as the sum of correct over
    the subset, as intermediate values; the returned object has exactly
    the properties [activeClients], [avgAccuracy], [activePrograms] and
    [masteredTargets], and its [avgAccuracy] is
    correctTrials / totalTrials * 100 when totalTrials is positive and 0
    otherwise. *)
Theorem stats_avgAccuracy_from_sums (db : Data) (filters : Filters)
    (filteredData : list DataPoint.t) :
  let total :=
    N_sum (map (fun d => DataPoint.correct d + DataPoint.incorrect d)%N
               filteredData) in
  let right := N_sum (map DataPoint.correct filteredData) in
  totalTrials_of filteredData = total
  /\ correctTrials_of filteredData = right
  /\ ((0 < total)%N ->
        exists q, avgAccuracy (stats db filters filteredData) = Fin q
                  /\ (q == inject_Z (Z.of_N right) / inject_Z (Z.of_N total) * 100)%Q)
  /\ (total = 0%N -> avgAccuracy (stats db filters filteredData) = Fin 0)
  /\ map fst (Stats_entries (stats db filters filteredData))
     = ["activeClients"; "avgAccuracy"; "activePrograms"; "masteredTargets"].
Proof.
  intros total right.
  split; [apply totalTrials_of_sum | split; [apply correctTrials_of_sum |]].
  unfold stats; cbn [avgAccuracy].
  rewrite totalTrials_of_sum, correctTrials_of_sum. fold total right.
  split; [| split; [| reflexivity]].
  - intros Hpos. rewrite (proj2 (N.ltb_lt 0 total) Hpos).
    now apply percent_finite.
  - intros ->. reflexivity.
Qed.

Lemma stats_avgAccuracy_from_sums_witness :
  exists q, avgAccuracy (stats demo default_filters [session_8_2]) = Fin q
            /\ (q == 80)%Q.
Proof.
  destruct (stats_avgAccuracy_from_sums demo default_filters [session_8_2])
    as (_ & _ & Hpos & _).
  destruct Hpos as [q [Hq He]]; [reflexivity |].
  exists q. split; [exact Hq |].
  rewrite He. reflexivity.
Defined.

(** The scenario of section 8, evaluated. *)
Example stats_session_8_2 :
  totalTrials_of [session_8_2] = 10%N
  /\ correctTrials_of [session_8_2] = 8%N
  /\ avgAccuracy (stats demo default_filters [session_8_2]) = Fin 80
  /\ toFixed1 (avgAccuracy (stats demo default_filters [session_8_2])) = "80.0".
Proof. repeat split. Qed.

(** ** Zero-trial groups *)


Lemma running_zero_trials_guarded (item : Bucket.t) :
  Bucket.correct item = 0%N -> Bucket.incorrect item = 0%N ->
  map CumPoint.accuracy (running 0 0 [item]) = [VNum (Fin 0)].
Proof.
  intros Hc Hi. simpl. now rewrite Hc, Hi.
Qed.

(** ** Target Drill-Down *)

Lemma filter_none {A} (f : A -> bool) (l : list A) :
  (forall x, In x l -> f x = false) -> filter f l = [].
Proof.
  induction l as [|x l IH]; intros H; simpl; [reflexivity |].
  rewrite (H x (or_introl eq_refl)). apply IH.
  intros y Hy. apply H. now right.
Qed.

(** C8.  For every filtered subset and every focused target id that
    matches no event of the subset, whether or not the id occurs in the
    Target table, the reducer returns the empty row list.  A focused id
    is a non-empty string: the page holds [null] or the id of a table
    row, and it tests the selection by truthiness. *)
Theorem targetDrillDown_unmatched_focus (db : Data) (focus : string)
    (filteredData : list DataPoint.t) :
  focus <> "" ->
  (forall d, In d filteredData -> DataPoint.targetId d <> focus) ->
  targetDrillDown db (Some focus) filteredData = [].
Proof.
  intros Hne Hno. unfold targetDrillDown, truthy.
  apply String.eqb_neq in Hne. rewrite Hne. cbn [negb].
  rewrite filter_none; [reflexivity |].
  intros d Hin. unfold same_target. apply String.eqb_neq. now apply Hno.
Qed.

Lemma targetDrillDown_unmatched_focus_witness :
  targetDrillDown demo (Some "p9-t4") demo_events = []
  /\ targetDrillDown demo (Some "p1-t2") [session_8_2] = [].
Proof.
  split.
  - apply targetDrillDown_unmatched_focus; [discriminate |].
    intros d Hin.
    repeat (destruct Hin as [<- | Hin]; [discriminate |]). destruct Hin.
  - apply targetDrillDown_unmatched_focus; [discriminate |].
    intros d Hin.
    repeat (destruct Hin as [<- | Hin]; [discriminate |]). destruct Hin.
Defined.

(** ** Facet toggle *)

Lemma facet_with_facet (s : Filters) (key : FacetKey) (u : list string) :
  facet key (with_facet s key u) = u.
Proof. destruct key; reflexivity. Qed.

Lemma with_facet_twice (s : Filters) (key : FacetKey) (u : list string) :
  with_facet (with_facet s key u) key (facet key s) = s.
Proof. destruct s, key; reflexivity. Qed.

Lemma includes_last (l : list string) (v : string) :
  includes (l ++ [v]) v = true.
Proof. apply includes_In, in_or_app. right. now left. Qed.

Lemma remove_appended (l : list string) (v : string) :
  ~ In v l -> filter (fun x => negb (x =? v)) (l ++ [v]) = l.
Proof.
  intros Hv. rewrite filter_app. simpl. rewrite String.eqb_refl. simpl.
  rewrite app_nil_r. apply forallb_filter_id, forallb_forall.
  intros x Hx. apply negb_true_iff, String.eqb_neq. intros ->. contradiction.
Qed.

(** A toggle rewrites the list under its key and nothing else. *)
Lemma toggleFilter_frame (key : FacetKey) (value : string) (s : Filters) :
  (forall other, other <> key ->
     facet other (toggleFilter key value s) = facet other s)
  /\ dateRange (toggleFilter key value s) = dateRange s
  /\ minMastery (toggleFilter key value s) = minMastery s
  /\ maxMastery (toggleFilter key value s) = maxMastery s.
Proof.
  split; [| repeat split].
  intros other Hne. unfold toggleFilter.
  destruct key, other; try reflexivity; contradiction.
Qed.

(** C10.  For a value that is not in the facet's list, toggling it twice
    under the same key gives back the original specification; and a
    toggle, of any value, changes only the list under its key: the other
    four lists, the date range and the mastery bounds stay as they
    were. *)
Theorem toggleFilter_involutive (key : FacetKey) (value : string) (s : Filters) :
  ~ In value (facet key s) ->
  toggleFilter key value (toggleFilter key value s) = s
  /\ facet key (toggleFilter key value s) = facet key s ++ [value]
  /\ forall v,
       (forall other, other <> key ->
          facet other (toggleFilter key v s) = facet other s)
       /\ dateRange (toggleFilter key v s) = dateRange s
       /\ minMastery (toggleFilter key v s) = minMastery s
       /\ maxMastery (toggleFilter key v s) = maxMastery s.
Proof.
  intros Habs.
  assert (Hinc : includes (facet key s) value = false).
  { destruct (includes (facet key s) value) eqn:E; [| reflexivity].
    apply includes_In in E. contradiction. }
  assert (Hone : toggleFilter key value s
                 = with_facet s key (facet key s ++ [value])).
  { unfold toggleFilter. now rewrite Hinc. }
  split; [| split].
  - rewrite Hone. unfold toggleFilter.
    rewrite facet_with_facet, includes_last, (remove_appended _ _ Habs).
    apply with_facet_twice.
  - rewrite Hone. apply facet_with_facet.
  - intros v. apply toggleFilter_frame.
Qed.

Lemma toggleFilter_involutive_witness :
  toggleFilter K_therapists "Dr. Emily Chen"
    (toggleFilter K_therapists "Dr. Emily Chen" two_clients) = two_clients.
Proof.
  apply (toggleFilter_involutive K_therapists "Dr. Emily Chen" two_clients).
  intros [].
Defined.

(** ** Sorting *)

Section SortFacts.
Context {A : Type} (compare : A -> A -> JsNumber).

Lemma sort_insert_perm (x : A) (l : list A) :
  Permutation (sort_insert compare x l) (x :: l).
Proof.
  induction l as [|y l IH]; simpl.
  - apply Permutation_refl.
  - destruct (js_gt0 (compare x y)).
    + apply perm_trans with (y :: x :: l).
      * now apply perm_skip.
      * apply perm_swap.
    + apply Permutation_refl.
Qed.

Lemma js_sort_perm (l : list A) : Permutation (js_sort compare l) l.
Proof.
  induction l as [|x l IH]; simpl.
  - apply perm_nil.
  - apply perm_trans with (x :: js_sort compare l).
    + apply sort_insert_perm.
    + now apply perm_skip.
Qed.

(** When the comparator is the sign of a difference of keys, the
    sorted array is ascending in the key. *)
Variable key : A -> Q.

Lemma sort_insert_ascending (x : A) (l : list A) :
  (forall y, In y l -> (js_gt0 (compare x y) = true <-> (key y < key x)%Q)) ->
  StronglySorted (ascending key) l ->
  StronglySorted (ascending key) (sort_insert compare x l).
Proof.
  induction l as [|y l IH]; intros Hcmp Hs; simpl.
  - constructor; constructor.
  - apply StronglySorted_inv in Hs. destruct Hs as [Hs Hy].
    destruct (js_gt0 (compare x y)) eqn:E.
    + constructor.
      * apply IH; [| assumption].
        intros z Hz. apply Hcmp. now right.
      * apply Forall_forall. intros z Hz.
        apply (Permutation_in _ (sort_insert_perm x l)) in Hz.
        destruct Hz as [<- | Hz].
        -- apply Qlt_le_weak, Hcmp; [now left | assumption].
        -- rewrite Forall_forall in Hy. now apply Hy.
    + assert (Hxy : (key x <= key y)%Q).
      { apply Qnot_lt_le. intros Hlt.
        apply (Hcmp y (or_introl eq_refl)) in Hlt. congruence. }
      constructor.
      * now constructor.
      * constructor; [assumption |].
        apply Forall_forall. intros z Hz.
        rewrite Forall_forall in Hy.
        apply Qle_trans with (key y); [assumption | now apply Hy].
Qed.

Lemma js_sort_ascending (l : list A) :
  (forall x y, In x l -> In y l ->
     (js_gt0 (compare x y) = true <-> (key y < key x)%Q)) ->
  StronglySorted (ascending key) (js_sort compare l).
Proof.
  induction l as [|x l IH]; intros Hcmp; simpl.
  - constructor.
  - apply sort_insert_ascending.
    + intros y Hy. apply (Permutation_in _ (js_sort_perm l)) in Hy.
      apply Hcmp; [now left | now right].
    + apply IH. intros a b Ha Hb. apply Hcmp; now right.
Qed.
End SortFacts.

Lemma StronglySorted_weaken {A} (R R' : A -> A -> Prop) (l : list A) :
  (forall x y, In x l -> In y l -> R x y -> R' x y) ->
  StronglySorted R l -> StronglySorted R' l.
Proof.
  induction l as [|a l IH]; intros Himp Hs.
  - constructor.
  - apply StronglySorted_inv in Hs. destruct Hs as [Hs Ha]. constructor.
    + apply IH; [| assumption].
      intros x y Hx Hy. apply Himp; now right.
    + rewrite Forall_forall in *. intros y Hy.
      apply Himp; [now left | now right | now apply Ha].
Qed.

Lemma js_gt0_sub (a b : Q) :
  js_gt0 (js_sub (Fin a) (Fin b)) = true <-> (b < a)%Q.
Proof.
  cbn [js_sub js_gt0]. rewrite js_lt_true, Qred_correct.
  split; intros H.
  - apply Qplus_lt_l with (z := - b). now rewrite Qplus_opp_r.
  - apply Qplus_lt_l with (z := - b) in H. now rewrite Qplus_opp_r in H.
Qed.

(** ** Dictionaries *)

Lemma dict_get_includes {V} (d : Dict V) (key : string) :
  includes (map fst d) key
  = match dict_get d key with Some _ => true | None => false end.
Proof.
  unfold dict_get, includes.
  induction d as [|[k v] d IH]; simpl; [reflexivity |].
  rewrite (String.eqb_sym key k). destruct (k =? key); simpl; [reflexivity |].
  exact IH.
Qed.

Lemma keys_dict_update {V} (d : Dict V) (key : string) (f : V -> V) :
  map fst (dict_update d key f) = map fst d.
Proof.
  unfold dict_update. rewrite map_map. apply map_ext.
  intros [k v]; simpl. now destruct (k =? key).
Qed.

Lemma keys_dict_add {V} (d : Dict V) (key : string) (v : V) :
  map fst (dict_add d key v) = map fst d ++ [key].
Proof. unfold dict_add. now rewrite map_app. Qed.

(** ** Monthly Cumulative Reducer *)

Section MonthlyFacts.
Variable format_MMM_yyyy : Z -> string.
Variable Date_getTime : string -> JsNumber.

Let label (dp : DataPoint.t) : string := format_MMM_yyyy (DataPoint.date dp).

Lemma keys_monthly_step (d : Dict Bucket.t) (dp : DataPoint.t) :
  map fst (monthly_step format_MMM_yyyy d dp) = Set_add (map fst d) (label dp).
Proof.
  unfold monthly_step, Set_add. cbv zeta.
  rewrite keys_dict_update, dict_get_includes. fold (label dp).
  destruct (dict_get d (label dp)); [reflexivity | apply keys_dict_add].
Qed.

Lemma keys_fold_monthly (l : list DataPoint.t) (d : Dict Bucket.t) :
  map fst (fold_left (monthly_step format_MMM_yyyy) l d)
  = fold_left Set_add (map label l) (map fst d).
Proof.
  revert d. induction l as [|dp l IH]; intros d; simpl; [reflexivity |].
  now rewrite IH, keys_monthly_step.
Qed.

Lemma keys_monthlyData (l : list DataPoint.t) :
  map fst (monthlyData_of format_MMM_yyyy l) = Set_of (map label l).
Proof. unfold monthlyData_of. now rewrite keys_fold_monthly. Qed.

Lemma labelled_step (d : Dict Bucket.t) (dp : DataPoint.t) :
  labelled d -> labelled (monthly_step format_MMM_yyyy d dp).
Proof.
  intros Hd. unfold monthly_step. cbv zeta. fold (label dp).
  assert (Hd' : labelled
            match dict_get d (label dp) with
            | Some _ => d
            | None => dict_add d (label dp) (Bucket.mk 0 0 (label dp))
            end).
  { destruct (dict_get d (label dp)); [assumption |].
    unfold labelled, dict_add. apply Forall_app. split; [assumption |].
    constructor; [reflexivity | constructor]. }
  revert Hd'. generalize (match dict_get d (label dp) with
                          | Some _ => d
                          | None => dict_add d (label dp) (Bucket.mk 0 0 (label dp))
                          end).
  intros d' Hd'. unfold labelled, dict_update in *.
  rewrite Forall_forall in *. intros kv Hkv.
  apply in_map_iff in Hkv. destruct Hkv as [[k b] [<- Hin]].
  specialize (Hd' _ Hin). simpl in *.
  destruct (k =? label dp); simpl; assumption.
Qed.

Lemma labelled_fold (l : list DataPoint.t) (d : Dict Bucket.t) :
  labelled d -> labelled (fold_left (monthly_step format_MMM_yyyy) l d).
Proof.
  revert d. induction l as [|dp l IH]; intros d Hd; simpl; [assumption |].
  apply IH, labelled_step, Hd.
Qed.

Lemma labelled_values (d : Dict Bucket.t) :
  labelled d -> map Bucket.date (values d) = map fst d.
Proof.
  unfold labelled, values. induction 1 as [|kv d Hkv Hd IH]; simpl.
  - reflexivity.
  - now rewrite Hkv, IH.
Qed.

(** The labels of the buckets, in insertion order, are the distinct
    labels of the sessions in order of first occurrence. *)
Lemma bucket_labels (l : list DataPoint.t) :
  map Bucket.date (values (monthlyData_of format_MMM_yyyy l))
  = Set_of (map label l).
Proof.
  rewrite labelled_values; [apply keys_monthlyData |].
  apply labelled_fold. constructor.
Qed.

Lemma running_months (c i : N) (l : list Bucket.t) :
  map CumPoint.month (running c i l) = map Bucket.date l.
Proof.
  revert c i. induction l as [|b l IH]; intros c i; simpl; [reflexivity |].
  now rewrite IH.
Qed.

Lemma running_at_least (c i : N) (l : list Bucket.t) :
  Forall (fun p => (c <= CumPoint.cumulative p)%N) (running c i l).
Proof.
  revert c i. induction l as [|b l IH]; intros c i; simpl; constructor.
  - simpl. lia.
  - eapply Forall_impl; [| apply IH]. simpl. intros p Hp. lia.
Qed.

Lemma running_monotone (c i : N) (l : list Bucket.t) :
  StronglySorted (fun p q => (CumPoint.cumulative p <= CumPoint.cumulative q)%N)
                 (running c i l).
Proof.
  revert c i. induction l as [|b l IH]; intros c i; simpl; constructor.
  - apply IH.
  - apply running_at_least.
Qed.

Lemma running_order (P : string -> string -> Prop) (c i : N)
    (l : list Bucket.t) :
  StronglySorted (fun x y => P (Bucket.date x) (Bucket.date y)) l ->
  StronglySorted (fun p q => P (CumPoint.month p) (CumPoint.month q))
                 (running c i l).
Proof.
  intros Hs. revert c i.
  induction Hs as [|b l Hs IH Hb]; intros c i; simpl; constructor.
  - apply IH.
  - apply Forall_forall. intros q Hq.
    assert (Hm : In (CumPoint.month q) (map Bucket.date l)).
    { rewrite <- (running_months (c + Bucket.correct b)
                                 (i + Bucket.incorrect b) l).
      now apply in_map. }
    apply in_map_iff in Hm. destruct Hm as [y [Hy Hin]].
    rewrite Forall_forall in Hb. simpl. rewrite <- Hy. now apply Hb.
Qed.

Lemma compare_months_sign (x y : Bucket.t) (a b : Q) :
  Date_getTime (Bucket.date x) = Fin a ->
  Date_getTime (Bucket.date y) = Fin b ->
  (js_gt0 (compare_months Date_getTime x y) = true
   <-> (bucket_time Date_getTime y < bucket_time Date_getTime x)%Q).
Proof.
  intros Hx Hy. unfold compare_months, bucket_time. rewrite Hx, Hy.
  apply js_gt0_sub.
Qed.
End MonthlyFacts.

(** C7.  The Monthly Cumulative Reducer emits exactly one point for each
    month label that occurs among the sessions of the subset; provided
    the engine reads every such label back as a date, the points are in
    ascending order of these re-derived dates; and the cumulative correct
    count never decreases from a point to a later one. *)
Theorem cumulativeGraphData_series (format_MMM_yyyy : Z -> string)
    (Date_getTime : string -> JsNumber) (filteredData : list DataPoint.t) :
  (forall d, In d filteredData ->
     exists t, Date_getTime (format_MMM_yyyy (DataPoint.date d)) = Fin t) ->
  let out := cumulativeGraphData format_MMM_yyyy Date_getTime filteredData in
  NoDup (map CumPoint.month out)
  /\ (forall label, In label (map CumPoint.month out) <->
        exists d, In d filteredData
                  /\ format_MMM_yyyy (DataPoint.date d) = label)
  /\ StronglySorted (chronological Date_getTime) out
  /\ StronglySorted
       (fun p q => (CumPoint.cumulative p <= CumPoint.cumulative q)%N) out.
Proof.
  intros Hparse out. unfold out, cumulativeGraphData. cbv zeta.
  set (md := monthlyData_of format_MMM_yyyy filteredData).
  set (cmp := compare_months Date_getTime).
  assert (Hperm : Permutation (map Bucket.date (js_sort cmp (values md)))
                    (Set_of (map (fun dp => format_MMM_yyyy (DataPoint.date dp))
                                 filteredData))).
  { rewrite <- bucket_labels. apply Permutation_map, js_sort_perm. }
  assert (Hlabels : forall label,
            In label (map Bucket.date (js_sort cmp (values md))) <->
            exists d, In d filteredData
                      /\ format_MMM_yyyy (DataPoint.date d) = label).
  { intros label. split.
    - intros H. apply (Permutation_in _ Hperm) in H.
      apply Set_of_In, in_map_iff in H. destruct H as [d [Hd Hin]]. eauto.
    - intros [d [Hin Hd]]. apply (Permutation_in _ (Permutation_sym Hperm)).
      apply Set_of_In, in_map_iff. eauto. }
  assert (Hfin : forall b, In b (values md) ->
            exists t, Date_getTime (Bucket.date b) = Fin t).
  { intros b Hb.
    assert (Hl : In (Bucket.date b) (map Bucket.date (js_sort cmp (values md)))).
    { apply in_map, (Permutation_in _ (Permutation_sym (js_sort_perm cmp _))), Hb. }
    apply Hlabels in Hl. destruct Hl as [d [Hin <-]]. now apply Hparse. }
  rewrite running_months.
  split; [| split; [exact Hlabels | split]].
  - apply (Permutation_NoDup (Permutation_sym Hperm)), Set_of_NoDup.
  - apply (running_order (fun la lb => exists a b : Q,
             Date_getTime la = Fin a /\ Date_getTime lb = Fin b /\ (a <= b)%Q)).
    apply StronglySorted_weaken
      with (R := ascending (bucket_time Date_getTime)).
    + intros x y Hx Hy Hxy.
      apply (Permutation_in _ (js_sort_perm cmp _)) in Hx, Hy.
      destruct (Hfin x Hx) as [a Ha]. destruct (Hfin y Hy) as [b Hb].
      exists a, b. repeat split; try assumption.
      unfold ascending, bucket_time in Hxy. now rewrite Ha, Hb in Hxy.
    + apply js_sort_ascending. intros x y Hx Hy.
      destruct (Hfin x Hx) as [a Ha]. destruct (Hfin y Hy) as [b Hb].
      now apply compare_months_sign with (a := a) (b := b).
  - apply running_monotone.
Qed.

Lemma cumulativeGraphData_series_witness :
  NoDup (map CumPoint.month
           (cumulativeGraphData demo_format demo_getTime (rev demo_events)))
  /\ (forall label,
        In label (map CumPoint.month
                    (cumulativeGraphData demo_format demo_getTime (rev demo_events)))
        <-> exists d, In d (rev demo_events)
                      /\ demo_format (DataPoint.date d) = label)
  /\ StronglySorted (chronological demo_getTime)
       (cumulativeGraphData demo_format demo_getTime (rev demo_events))
  /\ StronglySorted
       (fun p q => (CumPoint.cumulative p <= CumPoint.cumulative q)%N)
       (cumulativeGraphData demo_format demo_getTime (rev demo_events)).
Proof.
  apply (cumulativeGraphData_series demo_format demo_getTime (rev demo_events)).
  intros d Hin.
  repeat (destruct Hin as [<- | Hin]; [eexists; reflexivity |]).
  destruct Hin.
Defined.

(** The sessions of the data set, latest first: the points come out in
    calendar order, not in the order the months were first met. *)
Example cumulativeGraphData_reorders :
  map Bucket.date (values (monthlyData_of demo_format (rev demo_events)))
  = ["May 2024"; "Apr 2024"; "Mar 2024"]
  /\ map (fun p => (CumPoint.month p, CumPoint.cumulative p))
       (cumulativeGraphData demo_format demo_getTime (rev demo_events))
     = [("Mar 2024", 8%N); ("Apr 2024", 16%N); ("May 2024", 25%N)].
Proof. split; reflexivity. Qed.

(** The two-month scenario of section 8. *)
Example cumulativeGraphData_two_months :
  cumulativeGraphData demo_format demo_getTime two_months
  = [ CumPoint.mk "Mar 2024" 5 (VStr "100.0") 5;
      CumPoint.mk "Apr 2024" 8 (VStr "80.0") 10 ].
Proof. reflexivity. Qed.

(** An engine that reads no label back leaves the months in the order
    they were first met. *)
Example cumulativeGraphData_unread_labels :
  map CumPoint.month
    (cumulativeGraphData demo_format (fun _ => NaN) (rev demo_events))
  = ["May 2024"; "Apr 2024"; "Mar 2024"].
Proof. reflexivity. Qed.

(** ** Grouping into a dictionary *)

Lemma dict_get_update {V} (d : Dict V) (k key : string) (f : V -> V) :
  dict_get (dict_update d k f) key
  = if k =? key then option_map f (dict_get d key) else dict_get d key.
Proof.
  unfold dict_get, dict_update.
  induction d as [|[k0 v] d IH]; simpl.
  - now destruct (k =? key).
  - destruct (k0 =? k) eqn:E0; simpl.
    + apply String.eqb_eq in E0. subst k0.
      destruct (k =? key) eqn:E; simpl; [reflexivity | exact IH].
    + destruct (k0 =? key) eqn:E1; simpl.
      * apply String.eqb_eq in E1. subst k0.
        rewrite String.eqb_sym, E0. reflexivity.
      * exact IH.
Qed.

Lemma dict_get_add {V} (d : Dict V) (k key : string) (v : V) :
  dict_get (dict_add d k v) key
  = match dict_get d key with
    | Some x => Some x
    | None => if k =? key then Some v else None
    end.
Proof.
  unfold dict_get, dict_add.
  induction d as [|[k0 v0] d IH]; simpl.
  - now destruct (k =? key).
  - destruct (k0 =? key); simpl; [reflexivity | exact IH].
Qed.

Lemma dict_get_In {V} (d : Dict V) (k : string) (v : V) :
  NoDup (map fst d) -> In (k, v) d -> dict_get d k = Some v.
Proof.
  unfold dict_get. induction d as [|[k0 v0] d IH]; intros Hnd Hin; simpl.
  - destruct Hin.
  - inversion Hnd as [|? ? Hk0 Hnd']; subst.
    destruct Hin as [[= -> ->] | Hin].
    + now rewrite String.eqb_refl.
    + destruct (k0 =? k) eqn:E.
      * apply String.eqb_eq in E. subst k0. exfalso. apply Hk0.
        apply in_map_iff. now exists (k, v).
      * now apply IH.
Qed.

Lemma dict_get_Some_In {V} (d : Dict V) (k : string) (v : V) :
  dict_get d k = Some v -> In (k, v) d.
Proof.
  unfold dict_get. destruct (find _ d) as [[k0 v0]|] eqn:E; [| discriminate].
  intros [= <-]. apply find_some in E. destruct E as [Hin He].
  apply String.eqb_eq in He. simpl in He. now subst.
Qed.

Lemma N_sum_app (l1 l2 : list N) :
  N_sum (l1 ++ l2) = (N_sum l1 + N_sum l2)%N.
Proof.
  induction l1 as [|x l1 IH]; simpl; [reflexivity |]. rewrite IH. lia.
Qed.

Lemma N_sum_perm (l1 l2 : list N) :
  Permutation l1 l2 -> N_sum l1 = N_sum l2.
Proof.
  induction 1; simpl; lia.
Qed.

Section GroupFacts.
Context {E V : Type}.
Variable classify : E -> option (string * V).
Variable add : E -> V -> V.

Let step := group_step classify add.

Let key_of (e : E) : list string :=
  match classify e with
  | Some (k, _) => [k]
  | None => []
  end.

Lemma group_step_keys (d : Dict V) (e : E) :
  map fst (step d e) = fold_left Set_add (key_of e) (map fst d).
Proof.
  unfold step, group_step, key_of.
  destruct (classify e) as [[k init]|]; [| reflexivity].
  cbv zeta. rewrite keys_dict_update. simpl. unfold Set_add.
  rewrite dict_get_includes.
  destruct (dict_get d k); [reflexivity | apply keys_dict_add].
Qed.

Lemma group_fold_keys (l : list E) (d : Dict V) :
  map fst (fold_left step l d)
  = fold_left Set_add (flat_map key_of l) (map fst d).
Proof.
  revert d. induction l as [|e l IH]; intros d; simpl; [reflexivity |].
  now rewrite IH, group_step_keys, fold_left_app.
Qed.

Lemma group_fold_NoDup (l : list E) :
  NoDup (map fst (fold_left step l [])).
Proof.
  rewrite group_fold_keys. apply fold_Set_add. constructor.
Qed.

Lemma group_fold_key_In (l : list E) (k : string) :
  In k (map fst (fold_left step l []))
  <-> exists e init, In e l /\ classify e = Some (k, init).
Proof.
  rewrite group_fold_keys.
  destruct (fold_Set_add (flat_map key_of l) [] (NoDup_nil _)) as [_ H].
  rewrite H, in_flat_map. simpl. split.
  - intros [[] | [e [Hin Hk]]]. unfold key_of in Hk.
    destruct (classify e) as [[k0 init]|] eqn:Ec; [| destruct Hk].
    destruct Hk as [<- | []]. eauto.
  - intros [e [init [Hin Hc]]]. right. exists e. split; [assumption |].
    unfold key_of. rewrite Hc. now left.
Qed.

Lemma group_step_get (d : Dict V) (e : E) (key : string) :
  dict_get (step d e) key = entry_step classify add key (dict_get d key) e.
Proof.
  unfold step, group_step, entry_step.
  destruct (classify e) as [[k init]|]; [| reflexivity].
  cbv zeta. rewrite dict_get_update.
  destruct (k =? key) eqn:Ek; [apply String.eqb_eq in Ek; subst key |].
  - destruct (dict_get d k) as [v|] eqn:Eg.
    + now rewrite Eg.
    + rewrite dict_get_add, Eg, String.eqb_refl. reflexivity.
  - destruct (dict_get d k) as [v|]; [reflexivity |].
    rewrite dict_get_add, Ek. now destruct (dict_get d key).
Qed.

Lemma group_fold_get (l : list E) (d : Dict V) (key : string) :
  dict_get (fold_left step l d) key
  = fold_left (entry_step classify add key) l (dict_get d key).
Proof.
  revert d. induction l as [|e l IH]; intros d; simpl; [reflexivity |].
  now rewrite IH, group_step_get.
Qed.

(** A quantity that every added event raises by its weight. *)
Variable measure : V -> N.
Variable weight : E -> N.
Hypothesis measure_add : forall e v, measure (add e v) = (measure v + weight e)%N.
Hypothesis measure_init :
  forall e k init, classify e = Some (k, init) -> measure init = 0%N.

Lemma sum_dict_update (d : Dict V) (k : string) (e : E) :
  NoDup (map fst d) -> In k (map fst d) ->
  N_sum (map measure (values (dict_update d k (add e))))
  = (N_sum (map measure (values d)) + weight e)%N.
Proof.
  unfold values, dict_update.
  induction d as [|[k0 v] d IH]; intros Hnd Hin; simpl.
  - destruct Hin.
  - inversion Hnd as [|? ? Hk0 Hnd']; subst. simpl in Hk0.
    destruct (k0 =? k) eqn:E0; simpl.
    + apply String.eqb_eq in E0. subst k0. rewrite measure_add.
      assert (Hsame : map (fun kv : string * V =>
                             if fst kv =? k then (fst kv, add e (snd kv)) else kv) d
                      = d).
      { rewrite <- (map_id d) at 2. apply map_ext_in. intros [k1 v1] H1. simpl.
        destruct (k1 =? k) eqn:E1; [| reflexivity].
        apply String.eqb_eq in E1. subst k1. exfalso. apply Hk0.
        apply in_map_iff. now exists (k, v1). }
      rewrite Hsame. lia.
    + destruct Hin as [Hin | Hin].
      * simpl in Hin. subst k0. now rewrite String.eqb_refl in E0.
      * rewrite (IH Hnd' Hin). lia.
Qed.

Lemma sum_group_step (d : Dict V) (e : E) :
  NoDup (map fst d) ->
  N_sum (map measure (values (step d e)))
  = (N_sum (map measure (values d))
     + match classify e with Some _ => weight e | None => 0 end)%N.
Proof.
  intros Hnd. unfold step, group_step.
  destruct (classify e) as [[k init]|] eqn:Ec; [| now rewrite N.add_0_r].
  cbv zeta. destruct (dict_get d k) as [v|] eqn:Eg.
  - apply sum_dict_update; [assumption |].
    apply dict_get_Some_In in Eg. apply in_map_iff. now exists (k, v).
  - assert (Hk : ~ In k (map fst d)).
    { intros H. apply includes_In in H. rewrite dict_get_includes, Eg in H.
      discriminate. }
    rewrite sum_dict_update.
    + unfold dict_add, values. rewrite !map_app, N_sum_app. simpl.
      rewrite (measure_init e k init Ec). lia.
    + rewrite keys_dict_add. apply NoDup_app_remove_l with (l := []).
      simpl. apply Permutation_NoDup with (l := k :: map fst d).
      * apply Permutation_cons_append.
      * now constructor.
    + rewrite keys_dict_add. apply in_or_app. right. now left.
Qed.

Lemma sum_group_fold (l : list E) (d : Dict V) :
  NoDup (map fst d) ->
  N_sum (map measure (values (fold_left step l d)))
  = (N_sum (map measure (values d))
     + N_sum (map weight
                (filter (fun e => match classify e with
                                  | Some _ => true
                                  | None => false
                                  end) l)))%N.
Proof.
  revert d. induction l as [|e l IH]; intros d Hnd; simpl.
  - now rewrite N.add_0_r.
  - rewrite IH.
    + rewrite sum_group_step by assumption.
      destruct (classify e); simpl; lia.
    + unfold step. fold step. rewrite group_step_keys.
      apply fold_Set_add. assumption.
Qed.
End GroupFacts.

(** ** Ranked reducers *)

Lemma fold_left_same {A B} (f g : A -> B -> A) (l : list B) (a : A) :
  (forall x y, f x y = g x y) -> fold_left f l a = fold_left g l a.
Proof.
  intros H. revert a. induction l as [|b l IH]; intros a; simpl; [reflexivity |].
  now rewrite H, IH.
Qed.

Lemma js_sort_In {A} (compare : A -> A -> JsNumber) (l : list A) (x : A) :
  In x (js_sort compare l) <-> In x l.
Proof.
  split; intros H.
  - exact (Permutation_in _ (js_sort_perm compare l) H).
  - exact (Permutation_in _ (Permutation_sym (js_sort_perm compare l)) H).
Qed.

Lemma programBreakdown_grouped (db : Data) (l : list DataPoint.t) :
  programBreakdown db l
  = js_sort (fun a b => js_sub (of_N (ProgramRow.total b))
                               (of_N (ProgramRow.total a)))
      (map program_row
         (values (fold_left (group_step (classify_program db) add_to_program)
                            l []))).
Proof.
  unfold programBreakdown. cbv zeta. do 3 f_equal.
  apply fold_left_same. intros d dp.
  unfold program_step, group_step, classify_program.
  now destruct (find_program db (DataPoint.programId dp)).
Qed.

Lemma targetDrillDown_grouped (db : Data) (l : list DataPoint.t) :
  js_sort (fun a b => js_sub (of_N (TargetRow.total b))
                             (of_N (TargetRow.total a)))
    (map (target_row db)
       (values (fold_left (target_step db) l [])))
  = js_sort (fun a b => js_sub (of_N (TargetRow.total b))
                               (of_N (TargetRow.total a)))
      (map (target_row db)
         (values (fold_left (group_step (classify_target db) add_to_target)
                            l []))).
Proof.
  do 3 f_equal. apply fold_left_same. intros d dp.
  unfold target_step, group_step, classify_target.
  now destruct (find_target db (DataPoint.targetId dp)).
Qed.

Lemma find_program_id (db : Data) (k : string) (p : Program.t) :
  find_program db k = Some p -> Program.id p = k.
Proof.
  intros H. apply find_some in H. now apply String.eqb_eq.
Qed.

Lemma find_target_id (db : Data) (k : string) (t : Target.t) :
  find_target db k = Some t -> Target.id t = k.
Proof.
  intros H. apply find_some in H. now apply String.eqb_eq.
Qed.

(** Descending totals: the comparator [b.total - a.total] is positive
    exactly when [a] has the smaller total. *)
Lemma total_compare_sign (x y : N) :
  js_gt0 (js_sub (of_N y) (of_N x)) = true
  <-> (- inject_Z (Z.of_N y) < - inject_Z (Z.of_N x))%Q.
Proof.
  unfold of_N. rewrite js_gt0_sub. split; intros H.
  - now apply Qopp_lt_compat.
  - apply Qopp_lt_compat in H. now rewrite !Qopp_involutive in H.
Qed.

Lemma descending_totals (x y : N) :
  (- inject_Z (Z.of_N x) <= - inject_Z (Z.of_N y))%Q -> (y <= x)%N.
Proof.
  intros H. apply Qopp_le_compat in H. rewrite !Qopp_involutive in H.
  rewrite <- Zle_Qle in H. lia.
Qed.

(** X1.  The program rows come out in descending order of their totals. *)
Theorem programBreakdown_ranked (db : Data) (filteredData : list DataPoint.t) :
  StronglySorted program_rank (programBreakdown db filteredData).
Proof.
  unfold programBreakdown. cbv zeta.
  apply StronglySorted_weaken
    with (R := ascending (fun r => - inject_Z (Z.of_N (ProgramRow.total r)))%Q).
  - intros x y _ _ H. apply descending_totals, H.
  - apply js_sort_ascending. intros x y _ _. apply total_compare_sign.
Qed.

(** X4.  The target rows come out in descending order of their totals,
    whatever the drill-down selection. *)
Theorem targetDrillDown_ranked (db : Data) (drillDownTarget : option string)
    (filteredData : list DataPoint.t) :
  StronglySorted target_rank (targetDrillDown db drillDownTarget filteredData).
Proof.
  unfold targetDrillDown. cbv zeta.
  apply StronglySorted_weaken
    with (R := ascending (fun r => - inject_Z (Z.of_N (TargetRow.total r)))%Q).
  - intros x y _ _ H. apply descending_totals, H.
  - apply js_sort_ascending. intros x y _ _. apply total_compare_sign.
Qed.

Lemma program_entry_step (db : Data) (k : string) (o : option ProgramStat.t)
    (dp : DataPoint.t) :
  entry_step (classify_program db) add_to_program k o dp
  = match find_program db k with
    | Some p =>
        if DataPoint.programId dp =? k
        then Some (add_to_program dp
                     (match o with
                      | Some v => v
                      | None => ProgramStat.mk 0 0 (Program.name p)
                      end))
        else o
    | None => o
    end.
Proof.
  unfold entry_step, classify_program.
  destruct (DataPoint.programId dp =? k) eqn:Ek.
  - apply String.eqb_eq in Ek. rewrite Ek.
    destruct (find_program db k) as [p|] eqn:Ep; [| reflexivity].
    rewrite (find_program_id db k p Ep), String.eqb_refl. reflexivity.
  - destruct (find_program db (DataPoint.programId dp)) as [p'|] eqn:Ep'.
    + rewrite (find_program_id _ _ _ Ep'), Ek. now destruct (find_program db k).
    + now destruct (find_program db k).
Qed.

Lemma program_entry_fold (db : Data) (k : string) (l : list DataPoint.t)
    (o : option ProgramStat.t) :
  fold_left (entry_step (classify_program db) add_to_program k) l o
  = match find_program db k with
    | None => o
    | Some p =>
        fold_left
          (fun o dp =>
             Some (add_to_program dp
                     (match o with
                      | Some v => v
                      | None => ProgramStat.mk 0 0 (Program.name p)
                      end)))
          (sessions_of_program k l) o
    end.
Proof.
  revert o. induction l as [|dp l IH]; intros o.
  - simpl. now destruct (find_program db k).
  - cbn [fold_left]. rewrite IH, program_entry_step.
    unfold sessions_of_program. cbn [filter].
    destruct (find_program db k) as [p|]; [| reflexivity].
    now destruct (DataPoint.programId dp =? k).
Qed.

Lemma program_accumulate (name : string) (l : list DataPoint.t)
    (s : ProgramStat.t) :
  fold_left
    (fun o dp =>
       Some (add_to_program dp
               (match o with
                | Some v => v
                | None => ProgramStat.mk 0 0 name
                end)))
    l (Some s)
  = Some (ProgramStat.mk
            (ProgramStat.correct s + N_sum (map DataPoint.correct l))
            (ProgramStat.incorrect s + N_sum (map DataPoint.incorrect l))
            (ProgramStat.program s)).
Proof.
  revert s. induction l as [|dp l IH]; intros s; simpl.
  - rewrite !N.add_0_r. now destruct s.
  - rewrite IH. unfold add_to_program. simpl. f_equal. f_equal; lia.
Qed.

(** The entry stored under a key after the loop of [programBreakdown]. *)
Lemma program_entry (db : Data) (k : string) (l : list DataPoint.t) :
  dict_get (fold_left (group_step (classify_program db) add_to_program) l []) k
  = match find_program db k, sessions_of_program k l with
    | Some p, _ :: _ => Some (program_stat p (sessions_of_program k l))
    | _, _ => None
    end.
Proof.
  rewrite group_fold_get, program_entry_fold. simpl.
  destruct (find_program db k) as [p|]; [| reflexivity].
  destruct (sessions_of_program k l) as [|dp evs]; [reflexivity |].
  simpl. rewrite program_accumulate. reflexivity.
Qed.

(** X2.  The rows of [programBreakdown] are exactly the sums of the sessions
    of each program that resolves and has a session in the subset. *)
Theorem programBreakdown_rows (db : Data) (filteredData : list DataPoint.t)
    (r : ProgramRow.t) :
  In r (programBreakdown db filteredData)
  <-> exists k p,
        find_program db k = Some p
        /\ sessions_of_program k filteredData <> []
        /\ r = program_row (program_stat p (sessions_of_program k filteredData)).
Proof.
  rewrite programBreakdown_grouped, js_sort_In, in_map_iff.
  set (d := fold_left (group_step (classify_program db) add_to_program)
                      filteredData []).
  assert (Hnd : NoDup (map fst d)) by apply group_fold_NoDup.
  split.
  - intros [s [<- Hs]]. unfold values in Hs. apply in_map_iff in Hs.
    destruct Hs as [[k s'] [Hk Hin]]. simpl in Hk. subst s'.
    apply (dict_get_In d k s Hnd) in Hin. unfold d in Hin.
    rewrite program_entry in Hin.
    destruct (find_program db k) as [p|] eqn:Ep; [| discriminate].
    destruct (sessions_of_program k filteredData) as [|dp evs] eqn:Ee;
      [discriminate |].
    injection Hin as <-. exists k, p. rewrite Ee.
    split; [exact Ep | split; [discriminate | reflexivity]].
  - intros [k [p [Ep [Hne ->]]]].
    exists (program_stat p (sessions_of_program k filteredData)).
    split; [reflexivity |].
    assert (Hg : dict_get d k
                 = Some (program_stat p (sessions_of_program k filteredData))).
    { unfold d. rewrite program_entry, Ep.
      destruct (sessions_of_program k filteredData); [contradiction | reflexivity]. }
    apply dict_get_Some_In in Hg. unfold values. apply in_map_iff.
    now exists (k, program_stat p (sessions_of_program k filteredData)).
Qed.

(** X3.  No trial is lost or counted twice: the totals of the program rows
    add up to the trials of the sessions whose program resolves. *)
Theorem programBreakdown_conserves_trials (db : Data)
    (filteredData : list DataPoint.t) :
  N_sum (map ProgramRow.total (programBreakdown db filteredData))
  = totalTrials_of (with_program db filteredData).
Proof.
  rewrite programBreakdown_grouped.
  rewrite (N_sum_perm _ _ (Permutation_map _ (js_sort_perm _ _))).
  rewrite map_map.
  change (fun x => ProgramRow.total (program_row x))
    with (fun s => (ProgramStat.correct s + ProgramStat.incorrect s)%N).
  rewrite (sum_group_fold (classify_program db) add_to_program
             (fun s => (ProgramStat.correct s + ProgramStat.incorrect s)%N)
             (fun d => (DataPoint.correct d + DataPoint.incorrect d)%N)).
  - simpl. rewrite totalTrials_of_sum. unfold with_program. do 2 f_equal.
    apply filter_ext. intros dp. unfold classify_program.
    now destruct (find_program db (DataPoint.programId dp)).
  - intros e v. unfold add_to_program. simpl. lia.
  - intros e k init. unfold classify_program.
    destruct (find_program db (DataPoint.programId e)); [| discriminate].
    now intros [= _ <-].
  - constructor.
Qed.

(** ** Target Drill-Down rows *)

Lemma target_entry_step (db : Data) (k : string) (o : option TargetStat.t)
    (dp : DataPoint.t) :
  entry_step (classify_target db) add_to_target k o dp
  = match find_target db k with
    | Some t =>
        if DataPoint.targetId dp =? k
        then Some (add_to_target dp
                     (match o with
                      | Some v => v
                      | None => target_stat t []
                      end))
        else o
    | None => o
    end.
Proof.
  unfold entry_step, classify_target.
  destruct (DataPoint.targetId dp =? k) eqn:Ek.
  - apply String.eqb_eq in Ek. rewrite Ek.
    destruct (find_target db k) as [t|] eqn:Et; [| reflexivity].
    rewrite (proj2 (String.eqb_eq _ _) (find_target_id db k t Et)).
    reflexivity.
  - destruct (find_target db (DataPoint.targetId dp)) as [t'|] eqn:Et'.
    + rewrite (find_target_id _ _ _ Et'), Ek. now destruct (find_target db k).
    + now destruct (find_target db k).
Qed.

Lemma target_entry_fold (db : Data) (k : string) (l : list DataPoint.t)
    (o : option TargetStat.t) :
  fold_left (entry_step (classify_target db) add_to_target k) l o
  = match find_target db k with
    | None => o
    | Some t =>
        fold_left
          (fun o dp =>
             Some (add_to_target dp
                     (match o with
                      | Some v => v
                      | None => target_stat t []
                      end)))
          (sessions_of_target k l) o
    end.
Proof.
  revert o. induction l as [|dp l IH]; intros o.
  - simpl. now destruct (find_target db k).
  - cbn [fold_left]. rewrite IH, target_entry_step.
    unfold sessions_of_target. cbn [filter].
    destruct (find_target db k) as [t|]; [| reflexivity].
    now destruct (DataPoint.targetId dp =? k).
Qed.

Lemma target_accumulate (init : TargetStat.t) (l : list DataPoint.t)
    (s : TargetStat.t) :
  fold_left
    (fun o dp =>
       Some (add_to_target dp (match o with Some v => v | None => init end)))
    l (Some s)
  = Some (TargetStat.mk (TargetStat.id s) (TargetStat.name s)
            (TargetStat.programId s) (TargetStat.mastery s)
            (TargetStat.correct s + N_sum (map DataPoint.correct l))
            (TargetStat.incorrect s + N_sum (map DataPoint.incorrect l))
            (TargetStat.sessions s + N.of_nat (List.length l))).
Proof.
  revert s. induction l as [|dp l IH]; intros s.
  - simpl. rewrite !N.add_0_r. now destruct s.
  - cbn [fold_left]. rewrite IH. unfold add_to_target.
    cbn [TargetStat.id TargetStat.name TargetStat.programId TargetStat.mastery
         TargetStat.correct TargetStat.incorrect TargetStat.sessions
         map N_sum fold_right List.length].
    rewrite Nat2N.inj_succ. unfold N_sum. f_equal. f_equal; lia.
Qed.

(** The entry stored under a key after the loop of [targetDrillDown]. *)
Lemma target_entry (db : Data) (k : string) (l : list DataPoint.t) :
  dict_get (fold_left (group_step (classify_target db) add_to_target) l []) k
  = match find_target db k, sessions_of_target k l with
    | Some t, _ :: _ => Some (target_stat t (sessions_of_target k l))
    | _, _ => None
    end.
Proof.
  rewrite group_fold_get, target_entry_fold.
  change (dict_get [] k) with (@None TargetStat.t).
  destruct (find_target db k) as [t|]; [| reflexivity].
  destruct (sessions_of_target k l) as [|dp evs]; [reflexivity |].
  cbn [fold_left]. rewrite target_accumulate. unfold add_to_target, target_stat.
  cbn [TargetStat.id TargetStat.name TargetStat.programId TargetStat.mastery
       TargetStat.correct TargetStat.incorrect TargetStat.sessions
       map N_sum fold_right List.length].
  rewrite Nat2N.inj_succ. unfold N_sum. f_equal. f_equal; lia.
Qed.

(** The entries of the unfocused table. *)
Lemma target_entries (db : Data) (l : list DataPoint.t) (s : TargetStat.t) :
  In s (values (fold_left (group_step (classify_target db) add_to_target) l []))
  <-> exists k t,
        find_target db k = Some t
        /\ sessions_of_target k l <> []
        /\ s = target_stat t (sessions_of_target k l).
Proof.
  set (d := fold_left (group_step (classify_target db) add_to_target) l []).
  assert (Hnd : NoDup (map fst d)) by apply group_fold_NoDup.
  split.
  - intros Hs. unfold values in Hs. apply in_map_iff in Hs.
    destruct Hs as [[k s'] [Hk Hin]]. simpl in Hk. subst s'.
    apply (dict_get_In d k s Hnd) in Hin. unfold d in Hin.
    rewrite target_entry in Hin.
    destruct (find_target db k) as [t|] eqn:Et; [| discriminate].
    destruct (sessions_of_target k l) as [|dp evs] eqn:Ee; [discriminate |].
    injection Hin as <-. exists k, t. rewrite Ee.
    split; [exact Et | split; [discriminate | reflexivity]].
  - intros [k [t [Et [Hne ->]]]].
    assert (Hg : dict_get d k = Some (target_stat t (sessions_of_target k l))).
    { unfold d. rewrite target_entry, Et.
      destruct (sessions_of_target k l); [contradiction | reflexivity]. }
    apply dict_get_Some_In in Hg. unfold values. apply in_map_iff.
    now exists (k, target_stat t (sessions_of_target k l)).
Qed.

Lemma single_key_dict {V} (d : Dict V) (key : string) :
  NoDup (map fst d) ->
  (forall k, In k (map fst d) -> k = key) ->
  d = match dict_get d key with
      | Some v => [(key, v)]
      | None => []
      end.
Proof.
  intros Hnd Hkey. destruct d as [|[k0 v0] d]; [reflexivity |].
  assert (H0 : k0 = key) by (apply Hkey; now left). subst k0.
  unfold dict_get. simpl. rewrite String.eqb_refl. simpl.
  destruct d as [|[k1 v1] d]; [reflexivity |].
  assert (H1 : k1 = key) by (apply Hkey; right; now left). subst k1.
  inversion Hnd as [|? ? Hn _]. exfalso. apply Hn. now left.
Qed.

Lemma sessions_of_target_twice (k : string) (l : list DataPoint.t) :
  sessions_of_target k (sessions_of_target k l) = sessions_of_target k l.
Proof.
  unfold sessions_of_target. apply forallb_filter_id, forallb_forall.
  intros d Hd. now apply filter_In in Hd.
Qed.

(** The entries of the focused table: at most the one of the focused
    target. *)
Lemma focused_entries (db : Data) (focus : string) (l : list DataPoint.t) :
  values (fold_left (group_step (classify_target db) add_to_target)
                    (sessions_of_target focus l) [])
  = match find_target db focus, sessions_of_target focus l with
    | Some t, _ :: _ => [target_stat t (sessions_of_target focus l)]
    | _, _ => []
    end.
Proof.
  set (d := fold_left (group_step (classify_target db) add_to_target)
                      (sessions_of_target focus l) []).
  assert (Hd : d = match dict_get d focus with
                   | Some v => [(focus, v)]
                   | None => []
                   end).
  { apply single_key_dict; [apply group_fold_NoDup |].
    intros k Hk. apply group_fold_key_In in Hk.
    destruct Hk as [e [init [Hin Hc]]].
    apply filter_In in Hin. destruct Hin as [_ He].
    apply String.eqb_eq in He. unfold classify_target in Hc.
    destruct (find_target db (DataPoint.targetId e)) as [t|] eqn:Et;
      [| discriminate].
    injection Hc as <- _. rewrite (find_target_id _ _ _ Et). exact He. }
  rewrite Hd. unfold d at 1. rewrite target_entry, sessions_of_target_twice.
  destruct (find_target db focus) as [t|]; [| reflexivity].
  now destruct (sessions_of_target focus l).
Qed.

Lemma targetDrillDown_unfocused (db : Data) (l : list DataPoint.t) :
  targetDrillDown db None l
  = js_sort (fun a b => js_sub (of_N (TargetRow.total b))
                               (of_N (TargetRow.total a)))
      (map (target_row db)
         (values (fold_left (group_step (classify_target db) add_to_target)
                            l []))).
Proof.
  unfold targetDrillDown. cbv zeta. cbn [truthy].
  apply targetDrillDown_grouped.
Qed.

Lemma targetDrillDown_focused (db : Data) (focus : string)
    (l : list DataPoint.t) :
  focus <> "" ->
  targetDrillDown db (Some focus) l
  = match find_target db focus, sessions_of_target focus l with
    | Some t, _ :: _ =>
        [target_row db (target_stat t (sessions_of_target focus l))]
    | _, _ => []
    end.
Proof.
  intros Hne. unfold targetDrillDown. cbv zeta. unfold truthy.
  apply String.eqb_neq in Hne. rewrite Hne. cbn [negb].
  change (filter (same_target (Some focus)) l) with (sessions_of_target focus l).
  etransitivity; [apply targetDrillDown_grouped |].
  rewrite focused_entries.
  destruct (find_target db focus) as [t|]; [| reflexivity].
  now destruct (sessions_of_target focus l).
Qed.

(** X5.  In the unfocused table there is exactly one row for each target that
    resolves and has a session in the subset; the row carries the
    target's reference data, the sums of its sessions' correct and
    incorrect trials and the number of its sessions. *)
Theorem targetDrillDown_rows (db : Data) (filteredData : list DataPoint.t)
    (r : TargetRow.t) :
  (In r (targetDrillDown db None filteredData)
   <-> exists k t,
         find_target db k = Some t
         /\ sessions_of_target k filteredData <> []
         /\ r = target_row db
                  (target_stat t (sessions_of_target k filteredData)))
  /\ NoDup (map TargetRow.id (targetDrillDown db None filteredData)).
Proof.
  rewrite targetDrillDown_unfocused. split.
  - rewrite js_sort_In, in_map_iff. split.
    + intros [s [<- Hs]]. apply target_entries in Hs.
      destruct Hs as [k [t [Et [Hne ->]]]]. now exists k, t.
    + intros [k [t [Et [Hne ->]]]]. eexists. split; [reflexivity |].
      apply target_entries. now exists k, t.
  - set (d := fold_left (group_step (classify_target db) add_to_target)
                        filteredData []).
    apply (Permutation_NoDup
             (Permutation_sym (Permutation_map TargetRow.id (js_sort_perm _ _)))).
    rewrite map_map. cbn [target_row TargetRow.id].
    assert (Hkeys : map (fun x => TargetStat.id x) (values d) = map fst d).
    { unfold values. rewrite map_map. apply map_ext_in. intros [k s] Hin.
      simpl. assert (Hs : In s (values d)).
      { unfold values. apply in_map_iff. now exists (k, s). }
      apply (dict_get_In d k s (group_fold_NoDup _ _ _)) in Hin.
      unfold d in Hin. rewrite target_entry in Hin.
      destruct (find_target db k) as [t|] eqn:Et; [| discriminate].
      destruct (sessions_of_target k filteredData); [discriminate |].
      injection Hin as <-. simpl. now apply find_target_id in Et. }
    rewrite Hkeys. apply group_fold_NoDup.
Qed.

(** X6.  With a non-empty focused id the table is the single row of that
    target, built from all its sessions in the subset, or empty when the
    id does not resolve or has no session. *)
Theorem targetDrillDown_focus_row (db : Data) (focus : string)
    (filteredData : list DataPoint.t) :
  focus <> "" ->
  targetDrillDown db (Some focus) filteredData
  = match find_target db focus, sessions_of_target focus filteredData with
    | Some t, _ :: _ =>
        [target_row db (target_stat t (sessions_of_target focus filteredData))]
    | _, _ => []
    end.
Proof.
  intros Hne. unfold targetDrillDown. cbv zeta. unfold truthy.
  apply String.eqb_neq in Hne. rewrite Hne. cbn [negb].
  change (filter (same_target (Some focus)) filteredData)
    with (sessions_of_target focus filteredData).
  etransitivity; [apply targetDrillDown_grouped |].
  rewrite focused_entries.
  destruct (find_target db focus) as [t|]; [| reflexivity].
  now destruct (sessions_of_target focus filteredData).
Qed.

Lemma targetDrillDown_focus_row_witness :
  targetDrillDown demo (Some "p1-t1") demo_events
  = [ TargetRow.mk "p1-t1" "Request for water" "p1" (171 # 2) 17 3 2
        "85.0" 20 "Requesting" ].
Proof.
  rewrite (targetDrillDown_focus_row demo "p1-t1" demo_events).
  - reflexivity.
  - discriminate.
Defined.

(** X7.  A click on a row of the unfocused table narrows the table to exactly
    that row, provided the row's id is not the empty string. *)
Theorem selectRow_shows_row (db : Data) (st : Page.t) (r : TargetRow.t) :
  Page.drillDownTarget st = None ->
  In r (drillDownTable db st) ->
  TargetRow.id r <> "" ->
  drillDownTable db (selectRow r st) = [r]
  /\ drillDownTable db (clearSelection (selectRow r st)) = drillDownTable db st.
Proof.
  intros Hnone Hin Hid. unfold drillDownTable in *.
  destruct st as [f o]. simpl in *. subst o. split; [| reflexivity].
  rewrite targetDrillDown_unfocused, js_sort_In, in_map_iff in Hin.
  destruct Hin as [s [<- Hs]]. apply target_entries in Hs.
  destruct Hs as [k [t [Et [Hne ->]]]].
  assert (Hk : TargetRow.id
                 (target_row db
                    (target_stat t (sessions_of_target k (filteredData db f))))
               = k).
  { simpl. now apply find_target_id in Et. }
  rewrite Hk in *. rewrite (targetDrillDown_focused db k _ Hid), Et.
  destruct (sessions_of_target k (filteredData db f)); [contradiction | reflexivity].
Qed.

Lemma selectRow_shows_row_witness :
  drillDownTable demo
    (selectRow (TargetRow.mk "p1-t2" "Request for snack" "p1" 40 3 7 1
                  "30.0" 10 "Requesting")
               (Page.mk default_filters None))
  = [ TargetRow.mk "p1-t2" "Request for snack" "p1" 40 3 7 1
        "30.0" 10 "Requesting" ].
Proof.
  apply (selectRow_shows_row demo (Page.mk default_filters None)).
  - reflexivity.
  - right. left. reflexivity.
  - discriminate.
Defined.

(** ** Percentages *)

Lemma percent_bounds (correct total : N) :
  (correct <= total)%N -> (0 < total)%N ->
  (0 <= inject_Z (Z.of_N correct) / inject_Z (Z.of_N total) * 100
   /\ inject_Z (Z.of_N correct) / inject_Z (Z.of_N total) * 100 <= 100)%Q.
Proof.
  intros Hle Hpos.
  assert (Ht : (0 < inject_Z (Z.of_N total))%Q).
  { change 0%Q with (inject_Z 0). rewrite <- Zlt_Qlt. lia. }
  assert (Hc : (0 <= inject_Z (Z.of_N correct))%Q).
  { change 0%Q with (inject_Z 0). rewrite <- Zle_Qle. lia. }
  assert (Hct : (inject_Z (Z.of_N correct) <= inject_Z (Z.of_N total))%Q).
  { rewrite <- Zle_Qle. lia. }
  assert (Hr0 : (0 <= inject_Z (Z.of_N correct) / inject_Z (Z.of_N total))%Q).
  { apply Qle_shift_div_l; [assumption |]. now rewrite Qmult_0_l. }
  assert (Hr1 : (inject_Z (Z.of_N correct) / inject_Z (Z.of_N total) <= 1)%Q).
  { apply Qle_shift_div_r; [assumption |]. now rewrite Qmult_1_l. }
  split.
  - apply Qmult_le_0_compat; [assumption | discriminate].
  - setoid_replace 100%Q with (1 * 100)%Q at 2 by reflexivity.
    apply Qmult_le_compat_r; [assumption | discriminate].
Qed.

Lemma percent_is_percentage (correct total : N) :
  (correct <= total)%N -> (0 < total)%N ->
  is_percentage (js_mul (js_div (of_N correct) (of_N total)) (Fin 100)).
Proof.
  intros Hle Hpos. destruct (percent_finite correct total Hpos) as [q [Hq He]].
  exists q. split; [assumption |]. rewrite He. now apply percent_bounds.
Qed.

Lemma N_sum_le (f g : DataPoint.t -> N) (l : list DataPoint.t) :
  (forall d, (f d <= g d)%N) -> (N_sum (map f l) <= N_sum (map g l))%N.
Proof.
  intros H. induction l as [|d l IH]; simpl; [lia |].
  specialize (H d). lia.
Qed.

(** X9.  [avgAccuracy] is always a finite number between 0 and 100, never NaN
    or an infinity. *)
Theorem stats_avgAccuracy_percentage (db : Data) (filters : Filters)
    (filteredData : list DataPoint.t) :
  is_percentage (avgAccuracy (stats db filters filteredData)).
Proof.
  unfold stats; cbn [avgAccuracy].
  destruct (0 <? totalTrials_of filteredData)%N eqn:E.
  - apply N.ltb_lt in E. apply percent_is_percentage; [| assumption].
    rewrite totalTrials_of_sum, correctTrials_of_sum.
    apply N_sum_le. intros d. lia.
  - exists 0%Q. repeat split; discriminate.
Qed.

(** ** Distinct counts of the summary *)

Lemma filter_NoDup {A} (f : A -> bool) (l : list A) :
  NoDup l -> NoDup (filter f l).
Proof.
  induction 1 as [|x l Hx Hl IH]; simpl; [constructor |].
  destruct (f x); [| assumption].
  constructor; [| assumption]. intros H. apply filter_In in H. tauto.
Qed.

Lemma filter_map_length {A B} (f : A -> B) (p : B -> bool) (l : list A) :
  List.length (filter p (map f l))
  = List.length (filter (fun x => p (f x)) l).
Proof.
  induction l as [|x l IH]; simpl; [reflexivity |].
  destruct (p (f x)); simpl; now rewrite IH.
Qed.

(** X10.  [activePrograms] is the number of distinct program ids of the subset
    and [masteredTargets] the number of its distinct target ids that
    resolve to a target with mastery of at least 80; unresolved target
    ids are not counted. *)
Theorem stats_distinct_counts (db : Data) (filters : Filters)
    (filteredData : list DataPoint.t) :
  (exists programs : list string,
     NoDup programs
     /\ (forall id, In id programs <->
           exists d, In d filteredData /\ DataPoint.programId d = id)
     /\ activePrograms (stats db filters filteredData) = List.length programs)
  /\ (exists mastered : list string,
        NoDup mastered
        /\ (forall id, In id mastered <->
              (exists d, In d filteredData /\ DataPoint.targetId d = id)
              /\ exists t, find_target db id = Some t
                           /\ (80 <= Target.mastery t)%Q)
        /\ masteredTargets (stats db filters filteredData)
           = List.length mastered).
Proof.
  unfold stats; cbn [activePrograms masteredTargets]. split.
  - exists (Set_of (map DataPoint.programId filteredData)).
    split; [apply Set_of_NoDup | split; [| reflexivity]].
    intros id. rewrite Set_of_In, in_map_iff. split.
    + intros [d [Hd Hin]]. eauto.
    + intros [d [Hin Hd]]. eauto.
  - set (ids := Set_of (map DataPoint.targetId filteredData)).
    set (ok := fun tid => match find_target db tid with
                          | Some t => Qle_bool 80 (Target.mastery t)
                          | None => false
                          end).
    exists (filter ok ids).
    split; [apply filter_NoDup, Set_of_NoDup | split].
    + intros id. rewrite filter_In. unfold ids. rewrite Set_of_In, in_map_iff.
      unfold ok. split.
      * intros [[d [Hd Hin]] Hok]. split; [eauto |].
        destruct (find_target db id) as [t|]; [| discriminate].
        exists t. split; [reflexivity | now apply Qle_bool_iff].
      * intros [[d [Hin Hd]] [t [Et Hm]]]. split; [eauto |].
        rewrite Et. now apply Qle_bool_iff.
    + rewrite filter_map_length. reflexivity.
Qed.

(** ** Monthly series: totals and accuracies *)

Lemma last_cons {A} (x d : A) (l : list A) : last (x :: l) d = last l x.
Proof.
  revert x d. induction l as [|y l IH]; intros x d; [reflexivity |].
  change (last (x :: y :: l) d) with (last (y :: l) d).
  now rewrite (IH y d), (IH y x).
Qed.

Lemma running_last (l : list Bucket.t) (c i : N) :
  last (map CumPoint.cumulative (running c i l)) c
  = (c + N_sum (map Bucket.correct l))%N
  /\ last (map CumPoint.trials (running c i l)) (c + i)%N
     = (c + i + N_sum (map Bucket.correct l)
        + N_sum (map Bucket.incorrect l))%N.
Proof.
  revert c i. induction l as [|b l IH]; intros c i.
  - simpl. split; lia.
  - cbn [running map]. rewrite !last_cons. cbn [CumPoint.cumulative CumPoint.trials].
    destruct (IH (c + Bucket.correct b) (i + Bucket.incorrect b))%N as [H1 H2].
    rewrite H1, H2. simpl. split; lia.
Qed.

Lemma monthlyData_grouped (format_MMM_yyyy : Z -> string)
    (l : list DataPoint.t) :
  monthlyData_of format_MMM_yyyy l
  = fold_left (group_step (classify_month format_MMM_yyyy) add_to_month) l [].
Proof.
  unfold monthlyData_of. apply fold_left_same. reflexivity.
Qed.

Lemma monthly_sums (format_MMM_yyyy : Z -> string)
    (Date_getTime : string -> JsNumber) (l : list DataPoint.t) :
  N_sum (map Bucket.correct
           (js_sort (compare_months Date_getTime)
                    (values (monthlyData_of format_MMM_yyyy l))))
  = correctTrials_of l
  /\ N_sum (map Bucket.incorrect
              (js_sort (compare_months Date_getTime)
                       (values (monthlyData_of format_MMM_yyyy l))))
     = N_sum (map DataPoint.incorrect l).
Proof.
  rewrite !(N_sum_perm _ _ (Permutation_map _ (js_sort_perm _ _))).
  rewrite monthlyData_grouped, correctTrials_of_sum.
  assert (Hall : filter (fun e => match classify_month format_MMM_yyyy e with
                                  | Some _ => true
                                  | None => false
                                  end) l = l).
  { apply forallb_filter_id, forallb_forall. reflexivity. }
  split.
  - rewrite (sum_group_fold (classify_month format_MMM_yyyy) add_to_month
               Bucket.correct DataPoint.correct).
    + now rewrite Hall.
    + reflexivity.
    + intros e k init [= _ <-]. reflexivity.
    + constructor.
  - rewrite (sum_group_fold (classify_month format_MMM_yyyy) add_to_month
               Bucket.incorrect DataPoint.incorrect).
    + now rewrite Hall.
    + reflexivity.
    + intros e k init [= _ <-]. reflexivity.
    + constructor.
Qed.

Lemma N_sum_add (f g : DataPoint.t -> N) (l : list DataPoint.t) :
  N_sum (map (fun d => f d + g d)%N l)
  = (N_sum (map f l) + N_sum (map g l))%N.
Proof.
  induction l as [|d l IH]; simpl; [reflexivity |]. rewrite IH. lia.
Qed.

(** X11.  The series ends at the totals of the subset: the last point's
    cumulative count is the number of correct trials and its trial count
    the number of all trials, whatever the engine makes of the labels
    (0 stands for the value of an empty series). *)
Theorem cumulativeGraphData_totals (format_MMM_yyyy : Z -> string)
    (Date_getTime : string -> JsNumber) (filteredData : list DataPoint.t) :
  last (map CumPoint.cumulative
          (cumulativeGraphData format_MMM_yyyy Date_getTime filteredData)) 0%N
  = correctTrials_of filteredData
  /\ last (map CumPoint.trials
             (cumulativeGraphData format_MMM_yyyy Date_getTime filteredData)) 0%N
     = totalTrials_of filteredData.
Proof.
  unfold cumulativeGraphData. cbv zeta.
  destruct (monthly_sums format_MMM_yyyy Date_getTime filteredData) as [Hc Hi].
  destruct (running_last
              (js_sort (compare_months Date_getTime)
                 (values (monthlyData_of format_MMM_yyyy filteredData))) 0 0)
    as [H1 H2].
  rewrite Hc in H1, H2. rewrite Hi in H2.
  change (0 + 0)%N with 0%N in H2. rewrite H1, H2. split; [lia |].
  rewrite totalTrials_of_sum, correctTrials_of_sum, N_sum_add. lia.
Qed.

Lemma running_points (l : list Bucket.t) (c i : N) :
  Forall (fun p =>
            (CumPoint.cumulative p <= CumPoint.trials p)%N
            /\ ((CumPoint.trials p = 0%N /\ CumPoint.accuracy p = VNum (Fin 0))
                \/ ((0 < CumPoint.trials p)%N
                    /\ exists x, is_percentage x
                                 /\ CumPoint.accuracy p = VStr (toFixed1 x))))
         (running c i l).
Proof.
  revert c i. induction l as [|b l IH]; intros c i; cbn [running]; constructor.
  - cbn [CumPoint.cumulative CumPoint.trials CumPoint.accuracy].
    split; [lia |].
    destruct (0 <? c + Bucket.correct b + (i + Bucket.incorrect b))%N eqn:E.
    + right. apply N.ltb_lt in E. split; [assumption |].
      eexists. split; [| reflexivity].
      apply percent_is_percentage; [lia | assumption].
    + left. apply N.ltb_ge in E. split; [lia | reflexivity].
  - apply IH.
Qed.

(** X12.  Every point of the series has at most as many correct trials as
    trials, and its accuracy is the number 0 when no trial has been
    counted so far and otherwise the one-decimal text of a percentage:
    it is never the text of NaN or of an infinity. *)
Theorem cumulativeGraphData_accuracy (format_MMM_yyyy : Z -> string)
    (Date_getTime : string -> JsNumber) (filteredData : list DataPoint.t)
    (p : CumPoint.t) :
  In p (cumulativeGraphData format_MMM_yyyy Date_getTime filteredData) ->
  (CumPoint.cumulative p <= CumPoint.trials p)%N
  /\ ((CumPoint.trials p = 0%N /\ CumPoint.accuracy p = VNum (Fin 0))
      \/ ((0 < CumPoint.trials p)%N
          /\ exists x, is_percentage x
                       /\ CumPoint.accuracy p = VStr (toFixed1 x))).
Proof.
  unfold cumulativeGraphData. cbv zeta. intros Hin.
  pose proof (running_points
                (js_sort (compare_months Date_getTime)
                   (values (monthlyData_of format_MMM_yyyy filteredData))) 0 0)
    as H.
  rewrite Forall_forall in H. exact (H p Hin).
Qed.

Lemma cumulativeGraphData_accuracy_witness :
  (8 <= 10)%N
  /\ ((10%N = 0%N /\ VStr "80.0" = VNum (Fin 0))
      \/ ((0 < 10)%N
          /\ exists x, is_percentage x /\ VStr "80.0" = VStr (toFixed1 x))).
Proof.
  apply (cumulativeGraphData_accuracy demo_format demo_getTime demo_events
           (CumPoint.mk "Mar 2024" 8 (VStr "80.0") 10)).
  left. reflexivity.
Defined.

(** ** The accuracy text of the ranked reducers *)

Lemma digits_head (n : Z) (rest : string) :
  exists c s, (digits n ++ rest)%string = String c s /\ c <> "N"%char.
Proof.
  unfold digits, DecimalString.NilZero.string_of_uint.
  destruct (N.to_uint (Z.to_N n)); simpl;
    eexists; eexists; (split; [reflexivity | discriminate]).
Qed.

Lemma fixed1_not_NaN (x : Q) : fixed1 x <> "NaN".
Proof.
  unfold fixed1. cbv zeta.
  match goal with
  | |- (digits ?a ++ ?rest)%string <> _ =>
      destruct (digits_head a rest) as [c [s [He Hc]]]
  end.
  rewrite He. intros [= ->]. now apply Hc.
Qed.

(** The guard-free accuracy expression yields the text NaN exactly for a
    group without trials. *)
Lemma accuracy_of_NaN (correct incorrect : N) :
  accuracy_of correct incorrect = "NaN" <-> (correct + incorrect = 0)%N.
Proof.
  split.
  - intros H. destruct (N.eq_dec (correct + incorrect) 0) as [|Hne];
      [assumption | exfalso].
    assert (Hpos : (0 < correct + incorrect)%N) by lia.
    destruct (percent_finite correct (correct + incorrect) Hpos) as [q [Hq He]].
    unfold accuracy_of in H. rewrite Hq in H. cbn [toFixed1] in H.
    assert (H0 : js_lt q 0 = false).
    { apply js_lt_false. rewrite He. apply percent_bounds; lia. }
    rewrite H0 in H. exact (fixed1_not_NaN q H).
  - intros H. assert (correct = 0%N) by lia. assert (incorrect = 0%N) by lia.
    subst. reflexivity.
Qed.

(** X8.  In both ranked tables a row's total is the sum of its correct and
    incorrect counts, and its accuracy is the text NaN exactly when that
    total is 0. *)
Theorem ranked_rows_NaN_iff_no_trials (db : Data)
    (drillDownTarget : option string) (filteredData : list DataPoint.t) :
  (forall r, In r (programBreakdown db filteredData) ->
     ProgramRow.total r = (ProgramRow.correct r + ProgramRow.incorrect r)%N
     /\ (ProgramRow.accuracy r = "NaN" <-> ProgramRow.total r = 0%N))
  /\ (forall r, In r (targetDrillDown db drillDownTarget filteredData) ->
        TargetRow.total r = (TargetRow.correct r + TargetRow.incorrect r)%N
        /\ (TargetRow.accuracy r = "NaN" <-> TargetRow.total r = 0%N)).
Proof.
  split; intros r Hr.
  - unfold programBreakdown in Hr. cbv zeta in Hr.
    apply js_sort_In, in_map_iff in Hr. destruct Hr as [s [<- _]].
    cbn [ProgramRow.total ProgramRow.correct ProgramRow.incorrect
         ProgramRow.accuracy].
    split; [reflexivity | apply accuracy_of_NaN].
  - unfold targetDrillDown in Hr. cbv zeta in Hr.
    apply js_sort_In, in_map_iff in Hr. destruct Hr as [s [<- _]].
    cbn [TargetRow.total TargetRow.correct TargetRow.incorrect
         TargetRow.accuracy].
    split; [reflexivity | apply accuracy_of_NaN].
Qed.

Lemma ranked_rows_NaN_iff_no_trials_witness :
  (0 = 0 + 0)%N /\ ("NaN" = "NaN" <-> 0%N = 0%N).
Proof.
  apply (proj1 (ranked_rows_NaN_iff_no_trials demo None [session_0_0])
           (ProgramRow.mk 0 0 "Requesting" "NaN" 0)).
  left. reflexivity.
Defined.

(** ** Facet toggle: membership *)

Lemma toggled_facet (key : FacetKey) (value : string) (s : Filters) :
  facet key (toggleFilter key value s)
  = if includes (facet key s) value
    then filter (fun v => negb (v =? value)) (facet key s)
    else facet key s ++ [value].
Proof. unfold toggleFilter. cbv zeta. apply facet_with_facet. Qed.

Lemma toggled_membership (key : FacetKey) (value : string) (s : Filters)
    (w : string) :
  In w (facet key (toggleFilter key value s))
  <-> (w = value /\ ~ In value (facet key s))
      \/ (w <> value /\ In w (facet key s)).
Proof.
  rewrite toggled_facet. destruct (includes (facet key s) value) eqn:E.
  - apply includes_In in E. rewrite filter_In, negb_true_iff, String.eqb_neq.
    split.
    + intros [Hin Hne]. right. tauto.
    + intros [[-> Hn] | [Hne Hin]]; [contradiction | tauto].
  - assert (Hn : ~ In value (facet key s)).
    { intros H. apply includes_In in H. congruence. }
    rewrite in_app_iff. simpl. split.
    + intros [Hin | [<- | []]].
      * right. split; [| assumption]. intros ->. contradiction.
      * left. tauto.
    + intros [[-> _] | [_ Hin]]; [right; now left | now left].
Qed.

(** X13.  A toggle flips the membership of its value in the facet's list and
    leaves the membership of every other value as it was; a list without
    duplicates stays without duplicates. *)
Theorem toggleFilter_flips_membership (key : FacetKey) (value : string)
    (s : Filters) :
  (In value (facet key (toggleFilter key value s))
   <-> ~ In value (facet key s))
  /\ (forall w, w <> value ->
        (In w (facet key (toggleFilter key value s)) <-> In w (facet key s)))
  /\ (NoDup (facet key s) -> NoDup (facet key (toggleFilter key value s))).
Proof.
  split; [| split].
  - rewrite toggled_membership. split.
    + intros [[_ H] | [H _]]; [assumption | contradiction].
    + intros H. left. tauto.
  - intros w Hne. rewrite toggled_membership. split.
    + intros [[H _] | [_ H]]; [contradiction | assumption].
    + intros H. right. tauto.
  - intros Hnd. rewrite toggled_facet.
    destruct (includes (facet key s) value) eqn:E.
    + now apply filter_NoDup.
    + apply Permutation_NoDup with (l := value :: facet key s).
      * apply Permutation_cons_append.
      * constructor; [| assumption].
        intros H. apply includes_In in H. congruence.
Qed.

Lemma toggleFilter_flips_membership_witness :
  NoDup (facet K_clientIds (toggleFilter K_clientIds "c2" two_clients)).
Proof.
  apply (toggleFilter_flips_membership K_clientIds "c2" two_clients).
  repeat constructor; simpl; intuition discriminate.
Defined.

(** ** The filter depends on the lists only through membership *)

Lemma FacetKey_eq_dec (a b : FacetKey) : {a = b} + {a <> b}.
Proof. decide equality. Defined.

Lemma selected_same_members (l l' : list string) (v : string) :
  (forall w, In w l <-> In w l') -> (selected l v <-> selected l' v).
Proof.
  intros H. unfold selected. split.
  - intros [-> | Hin].
    + destruct l' as [|a l']; [now left |].
      exfalso. apply (proj2 (H a)). now left.
    + right. now apply H.
  - intros [-> | Hin].
    + destruct l as [|a l]; [now left |].
      exfalso. apply (proj1 (H a)). now left.
    + right. now apply H.
Qed.

Lemma facets_hold_same_members (db : Data) (f f' : Filters) (dp : DataPoint.t) :
  (forall key w, In w (facet key f) <-> In w (facet key f')) ->
  dateRange f = dateRange f' ->
  minMastery f = minMastery f' ->
  maxMastery f = maxMastery f' ->
  (facets_hold db f dp <-> facets_hold db f' dp).
Proof.
  intros Hm Hd Hmin Hmax. unfold facets_hold.
  assert (Hr : forall m, in_mastery_range f m <-> in_mastery_range f' m).
  { intros m. unfold in_mastery_range. now rewrite Hmin, Hmax. }
  assert (Hdt : forall d, in_date_range f d <-> in_date_range f' d).
  { intros d. unfold in_date_range. now rewrite Hd. }
  pose proof (fun v => selected_same_members _ _ v (Hm K_clientIds)) as S1.
  pose proof (fun v => selected_same_members _ _ v (Hm K_programIds)) as S2.
  pose proof (fun v => selected_same_members _ _ v (Hm K_targetIds)) as S3.
  pose proof (fun v => selected_same_members _ _ v (Hm K_categories)) as S4.
  pose proof (fun v => selected_same_members _ _ v (Hm K_therapists)) as S5.
  cbn [facet] in S1, S2, S3, S4, S5.
  split; intros (H1 & H2 & H3 & H4 & H5 & H6 & H7).
  - split; [now apply S1 |]. split; [now apply S2 |]. split; [now apply S3 |].
    split; [intros t Ht; apply Hr; now apply H4 |].
    split; [intros p Hp; apply S4; now apply H5 |].
    split; [intros c Hc; apply S5; now apply H6 | now apply Hdt].
  - split; [now apply S1 |]. split; [now apply S2 |]. split; [now apply S3 |].
    split; [intros t Ht; apply Hr; now apply H4 |].
    split; [intros p Hp; apply S4; now apply H5 |].
    split; [intros c Hc; apply S5; now apply H6 | now apply Hdt].
Qed.

Lemma filteredData_same_members (db : Data) (f f' : Filters) :
  (forall key w, In w (facet key f) <-> In w (facet key f')) ->
  dateRange f = dateRange f' ->
  minMastery f = minMastery f' ->
  maxMastery f = maxMastery f' ->
  filteredData db f = filteredData db f'.
Proof.
  intros Hm Hd Hmin Hmax. unfold filteredData. apply filter_ext. intros dp.
  pose proof (facets_hold_same_members db f f' dp Hm Hd Hmin Hmax) as H.
  rewrite <- !keep_spec in H.
  destruct (keep db f dp), (keep db f' dp); try reflexivity.
  - symmetry. now apply H.
  - now apply H.
Qed.

(** X14.  Toggling a value twice never changes what the filter returns, also
    when the value was selected before (it then moves to the end of its
    list, and duplicates of it are dropped). *)
Theorem toggleFilter_twice_same_filter (db : Data) (key : FacetKey)
    (value : string) (s : Filters) :
  filteredData db (toggleFilter key value (toggleFilter key value s))
  = filteredData db s.
Proof.
  apply filteredData_same_members.
  - intros k w. destruct (FacetKey_eq_dec k key) as [-> | Hne].
    + rewrite !toggled_membership.
      destruct (in_dec String.string_dec value (facet key s)) as [Hv | Hv];
        destruct (String.string_dec w value) as [-> | Hw];
        intuition congruence.
    + destruct (toggleFilter_frame key value (toggleFilter key value s))
        as [H _].
      destruct (toggleFilter_frame key value s) as [H' _].
      rewrite (H k Hne), (H' k Hne). reflexivity.
  - destruct (toggleFilter_frame key value (toggleFilter key value s))
      as (_ & H & _).
    destruct (toggleFilter_frame key value s) as (_ & H' & _). congruence.
  - destruct (toggleFilter_frame key value (toggleFilter key value s))
      as (_ & _ & H & _).
    destruct (toggleFilter_frame key value s) as (_ & _ & H' & _). congruence.
  - destruct (toggleFilter_frame key value (toggleFilter key value s))
      as (_ & _ & _ & H).
    destruct (toggleFilter_frame key value s) as (_ & _ & _ & H'). congruence.
Qed.

(** ** How the filter reacts to a change of the specification *)

Lemma filter_subseq_impl {A} (p q : A -> bool) (l : list A) :
  (forall x, In x l -> p x = true -> q x = true) ->
  subseq (filter p l) (filter q l).
Proof.
  induction l as [|x l IH]; intros H; simpl.
  - constructor.
  - assert (IH' : subseq (filter p l) (filter q l)).
    { apply IH. intros y Hy. apply H. now right. }
    destruct (p x) eqn:Ep.
    + rewrite (H x (or_introl eq_refl) Ep). now constructor.
    + destruct (q x); [now constructor | assumption].
Qed.

Lemma filteredData_widens (db : Data) (f f' : Filters) :
  (forall dp, facets_hold db f dp -> facets_hold db f' dp) ->
  subseq (filteredData db f) (filteredData db f').
Proof.
  intros H. unfold filteredData. apply filter_subseq_impl.
  intros dp _ Hk. apply keep_spec. apply H. now apply keep_spec.
Qed.

Lemma facets_hold_mono (db : Data) (f f' : Filters) (dp : DataPoint.t) :
  (forall key x, selected (facet key f) x -> selected (facet key f') x) ->
  (forall m, in_mastery_range f m -> in_mastery_range f' m) ->
  (forall d, in_date_range f d -> in_date_range f' d) ->
  facets_hold db f dp -> facets_hold db f' dp.
Proof.
  intros Hs Hm Hd (H1 & H2 & H3 & H4 & H5 & H6 & H7). unfold facets_hold.
  split; [exact (Hs K_clientIds _ H1) |].
  split; [exact (Hs K_programIds _ H2) |].
  split; [exact (Hs K_targetIds _ H3) |].
  split; [intros t Ht; apply Hm; now apply H4 |].
  split; [intros p Hp; apply (Hs K_categories); now apply H5 |].
  split; [intros c Hc; apply (Hs K_therapists); now apply H6 | now apply Hd].
Qed.

(** Two specifications that differ in one facet's list only. *)
Lemma one_facet_mono (db : Data) (key : FacetKey) (value : string)
    (f : Filters) (forward : bool) :
  (forall x,
     if forward
     then selected (facet key f) x ->
          selected (facet key (toggleFilter key value f)) x
     else selected (facet key (toggleFilter key value f)) x ->
          selected (facet key f) x) ->
  if forward
  then subseq (filteredData db f) (filteredData db (toggleFilter key value f))
  else subseq (filteredData db (toggleFilter key value f)) (filteredData db f).
Proof.
  intros Hsel.
  destruct (toggleFilter_frame key value f) as (Hother & Hd & Hmin & Hmax).
  destruct forward; apply filteredData_widens; intros dp;
    apply facets_hold_mono.
  - intros k x. destruct (FacetKey_eq_dec k key) as [-> | Hne];
      [apply Hsel | now rewrite (Hother k Hne)].
  - intros m. unfold in_mastery_range. now rewrite Hmin, Hmax.
  - intros d. unfold in_date_range. now rewrite Hd.
  - intros k x. destruct (FacetKey_eq_dec k key) as [-> | Hne];
      [apply Hsel | now rewrite (Hother k Hne)].
  - intros m. unfold in_mastery_range. now rewrite Hmin, Hmax.
  - intros d. unfold in_date_range. now rewrite Hd.
Qed.

(** X15.  The first value selected in a facet can only narrow the result and
    each further value can only widen it; deselecting a value can only
    narrow the result as long as other values stay selected, and
    deselecting the last one lifts the restriction. *)
Theorem toggleFilter_narrows_or_widens (db : Data) (key : FacetKey)
    (value : string) (s : Filters) :
  (facet key s = [] ->
     subseq (filteredData db (toggleFilter key value s)) (filteredData db s))
  /\ (facet key s <> [] -> ~ In value (facet key s) ->
        subseq (filteredData db s) (filteredData db (toggleFilter key value s)))
  /\ (In value (facet key s) -> facet key (toggleFilter key value s) <> [] ->
        subseq (filteredData db (toggleFilter key value s)) (filteredData db s))
  /\ (In value (facet key s) -> facet key (toggleFilter key value s) = [] ->
        subseq (filteredData db s) (filteredData db (toggleFilter key value s))).
Proof.
  split; [| split; [| split]].
  - intros He. apply (one_facet_mono db key value s false).
    intros x _. left. exact He.
  - intros Hne Habs. apply (one_facet_mono db key value s true).
    intros x [He | Hin]; [contradiction |].
    right. apply toggled_membership.
    destruct (String.string_dec x value) as [-> | Hx]; [contradiction |].
    right. tauto.
  - intros Hin Hne. apply (one_facet_mono db key value s false).
    intros x [He | Hx]; [contradiction |].
    right. apply toggled_membership in Hx. tauto.
  - intros Hin He. apply (one_facet_mono db key value s true).
    intros x _. left. exact He.
Qed.

Lemma toggleFilter_narrows_or_widens_witness :
  subseq (filteredData demo (toggleFilter K_categories "Communication"
                               default_filters))
         (filteredData demo default_filters)
  /\ subseq (filteredData demo two_clients)
            (filteredData demo (toggleFilter K_programIds "p3" two_clients)).
Proof.
  split.
  - apply (proj1 (toggleFilter_narrows_or_widens demo K_categories
                    "Communication" default_filters)).
    reflexivity.
  - apply (proj1 (proj2 (toggleFilter_narrows_or_widens demo K_programIds
                           "p3" two_clients))).
    + discriminate.
    + simpl. intuition discriminate.
Defined.

(** X16.  Widening the mastery range or the date interval, with the five lists
    unchanged, never drops an event. *)
Theorem wider_ranges_keep_events (db : Data) (f f' : Filters) :
  (forall key, facet key f = facet key f') ->
  (minMastery f' <= minMastery f)%Q ->
  (maxMastery f <= maxMastery f')%Q ->
  (start (dateRange f') <= start (dateRange f))%Z ->
  (end_ (dateRange f) <= end_ (dateRange f'))%Z ->
  subseq (filteredData db f) (filteredData db f').
Proof.
  intros Hl Hmin Hmax Hs He. apply filteredData_widens. intros dp.
  apply facets_hold_mono.
  - intros k x. now rewrite (Hl k).
  - intros m [H1 H2]. split.
    + now apply Qle_trans with (minMastery f).
    + now apply Qle_trans with (maxMastery f).
  - intros d [H1 H2]. unfold in_date_range. lia.
Qed.

Lemma wider_ranges_keep_events_witness :
  subseq (filteredData demo spring_p1)
         (filteredData demo (toggleFilter K_programIds "p1" default_filters)).
Proof.
  apply wider_ranges_keep_events.
  - intros []; reflexivity.
  - discriminate.
  - discriminate.
  - discriminate.
  - discriminate.
Defined.

(** ** Summary cards *)

Lemma masteredTargetIds_In (db : Data) (id : string) :
  In id (masteredTargetIds db)
  <-> exists t, In t (allTargets db) /\ Target.id t = id
                /\ (80 <= Target.mastery t)%Q.
Proof.
  unfold masteredTargetIds. rewrite in_map_iff. split.
  - intros [t [Hid Hin]]. apply filter_In in Hin. destruct Hin as [Hin Hm].
    exists t. repeat split; try assumption. now apply Qle_bool_iff.
  - intros [t [Hin [Hid Hm]]]. exists t. split; [assumption |].
    apply filter_In. split; [assumption | now apply Qle_bool_iff].
Qed.

(** X17.  A click on a summary card clears the drill-down selection.  The
    Mastered Targets card also replaces the target selection by the ids
    of the targets with mastery of at least 80: the filter then returns
    only sessions of such targets, unless no target is mastered, in which
    case the target facet is left without restriction.  The other cards
    leave the specification as it is. *)
Theorem handleCardClick_effect (db : Data) (type : CardType) (st : Page.t) :
  Page.drillDownTarget (handleCardClick db type st) = None
  /\ (type <> Card_targets ->
        Page.filters (handleCardClick db type st) = Page.filters st)
  /\ (type = Card_targets ->
        targetIds (Page.filters (handleCardClick db type st))
          = masteredTargetIds db
        /\ (forall other, other <> K_targetIds ->
              facet other (Page.filters (handleCardClick db type st))
                = facet other (Page.filters st))
        /\ (masteredTargetIds db <> [] ->
              forall dp,
                In dp (filteredData db (Page.filters (handleCardClick db type st))) ->
                exists t, In t (allTargets db)
                          /\ Target.id t = DataPoint.targetId dp
                          /\ (80 <= Target.mastery t)%Q)
        /\ (masteredTargetIds db = [] ->
              filteredData db (Page.filters (handleCardClick db type st))
                = filteredData db (with_facet (Page.filters st) K_targetIds []))).
Proof.
  split; [now destruct type | split].
  - intros Hne. destruct type; try reflexivity. contradiction.
  - intros ->. unfold handleCardClick. cbn [Page.filters Page.drillDownTarget].
    split; [reflexivity | split; [| split]].
    + intros other Hne. destruct other; try reflexivity. contradiction.
    + intros Hne dp Hin. unfold filteredData in Hin.
      apply filter_In in Hin. destruct Hin as [_ Hk].
      apply keep_spec in Hk. destruct Hk as (_ & _ & Hsel & _).
      cbn [with_facet targetIds] in Hsel. destruct Hsel as [He | Hin].
      * contradiction.
      * now apply masteredTargetIds_In.
    + intros ->. reflexivity.
Qed.

Lemma handleCardClick_effect_witness :
  targetIds (Page.filters (handleCardClick demo Card_targets
                             (Page.mk two_clients (Some "p1-t2"))))
  = ["p1-t1"]
  /\ Page.filters (handleCardClick demo Card_programs
                     (Page.mk two_clients (Some "p1-t2"))) = two_clients.
Proof.
  split.
  - apply (proj1 (proj2 (proj2 (handleCardClick_effect demo Card_targets
                                  (Page.mk two_clients (Some "p1-t2"))))
                    eq_refl)).
  - apply (proj1 (proj2 (handleCardClick_effect demo Card_programs
                           (Page.mk two_clients (Some "p1-t2"))))).
    discriminate.
Defined.

(** ** Facet Option Providers *)

Lemma prefix_spec (a b : string) :
  String.prefix a b = true <-> exists post, b = (a ++ post)%string.
Proof.
  revert b. induction a as [|c a IH]; intros b.
  - split; [intros _; now exists b | intros _; now destruct b].
  - destruct b as [|d b]; simpl.
    + split; [discriminate | intros [post H]; discriminate].
    + destruct (ascii_dec c d) as [-> | Hne].
      * rewrite IH. split; intros [post H]; exists post.
        -- now rewrite H.
        -- now injection H.
      * split; [discriminate |].
        intros [post H]. injection H as H _. congruence.
Qed.

Lemma str_includes_spec (s sub : string) :
  str_includes s sub = true <-> occurs_in sub s.
Proof.
  unfold occurs_in. induction s as [|c s IH]; cbn [str_includes].
  - destruct (String.prefix sub "") eqn:E.
    + apply prefix_spec in E. destruct E as [post E].
      split; [intros _; now exists ""%string, post | reflexivity].
    + split; [discriminate |]. intros [pre [post H]].
      destruct pre; [| discriminate]. simpl in H.
      assert (Hp : String.prefix sub "" = true).
      { apply prefix_spec. now exists post. }
      congruence.
  - destruct (String.prefix sub (String c s)) eqn:E.
    + apply prefix_spec in E. destruct E as [post E].
      split; [intros _; now exists ""%string, post | reflexivity].
    + rewrite IH. split.
      * intros [pre [post H]]. exists (String c pre), post. simpl. now rewrite H.
      * intros [pre [post H]]. destruct pre as [|c' pre].
        -- simpl in H. assert (Hp : String.prefix sub (String c s) = true).
           { apply prefix_spec. now exists post. }
           congruence.
        -- simpl in H. injection H as _ H. now exists pre, post.
Qed.

Lemma str_includes_empty (s : string) : str_includes s "" = true.
Proof.
  apply str_includes_spec. exists ""%string, s. reflexivity.
Qed.

Lemma subseq_trans {A} (l1 l2 l3 : list A) :
  subseq l1 l2 -> subseq l2 l3 -> subseq l1 l3.
Proof.
  intros H12 H23. revert l1 H12.
  induction H23 as [|x l2 l3 H23 IH|x l2 l3 H23 IH]; intros l1 H12.
  - exact H12.
  - apply subseq_skip. now apply IH.
  - inversion H12; subst.
    + apply subseq_skip. now apply IH.
    + apply subseq_take. now apply IH.
Qed.

(** X18.  Each search list holds, in table order, exactly the records whose
    lower-cased name contains the lower-cased search text; the target
    list is first restricted to the selected programs, if any, and the
    dropdown shows its first 50 entries. *)
Theorem search_lists (toLowerCase : string -> string) (db : Data)
    (filters : Filters) (search : string) :
  (subseq (filteredClients toLowerCase db search) (clients db)
   /\ forall c, In c (filteredClients toLowerCase db search)
                <-> In c (clients db)
                    /\ occurs_in (toLowerCase search)
                                 (toLowerCase (Client.name c)))
  /\ (subseq (filteredPrograms toLowerCase db search) (allPrograms db)
      /\ forall p, In p (filteredPrograms toLowerCase db search)
                   <-> In p (allPrograms db)
                       /\ occurs_in (toLowerCase search)
                                    (toLowerCase (Program.name p)))
  /\ (subseq (filteredTargets toLowerCase db filters search) (allTargets db)
      /\ (forall t, In t (filteredTargets toLowerCase db filters search)
                    <-> In t (allTargets db)
                        /\ selected (programIds filters) (Target.programId t)
                        /\ occurs_in (toLowerCase search)
                                     (toLowerCase (Target.name t)))
      /\ (List.length (shownTargets toLowerCase db filters search) <= 50)%nat
      /\ exists rest,
           filteredTargets toLowerCase db filters search
           = shownTargets toLowerCase db filters search ++ rest).
Proof.
  split; [| split].
  - split; [apply filter_subseq |].
    intros c. unfold filteredClients.
    now rewrite filter_In, str_includes_spec.
  - split; [apply filter_subseq |].
    intros p. unfold filteredPrograms.
    now rewrite filter_In, str_includes_spec.
  - unfold shownTargets, filteredTargets. cbv zeta.
    destruct (programIds filters) as [|a ids] eqn:Eids;
      cbn [List.length Nat.ltb Nat.leb].
    + split; [apply filter_subseq | split; [| split]].
      * intros t. rewrite filter_In, str_includes_spec. unfold selected.
        intuition.
      * apply firstn_le_length.
      * eexists. symmetry. apply firstn_skipn.
    + split; [| split; [| split]].
      * eapply subseq_trans; apply filter_subseq.
      * intros t. rewrite !filter_In, str_includes_spec, includes_In.
        unfold selected. split.
        -- intros [[Hin Hp] Ho]. auto.
        -- intros [Hin [[He | Hp] Ho]]; [discriminate | auto].
      * apply firstn_le_length.
      * eexists. symmetry. apply firstn_skipn.
Qed.

(** X19.  With an empty search box every client and every program is listed,
    and every target when no program is selected; this needs
    [toLowerCase] to map the empty string to itself. *)
Theorem empty_search_lists_all (toLowerCase : string -> string) (db : Data)
    (filters : Filters) :
  toLowerCase "" = "" ->
  filteredClients toLowerCase db "" = clients db
  /\ filteredPrograms toLowerCase db "" = allPrograms db
  /\ (programIds filters = [] ->
        filteredTargets toLowerCase db filters "" = allTargets db).
Proof.
  intros He.
  assert (Hall : forall {A} (name : A -> string) (l : list A),
            filter (fun x => str_includes (toLowerCase (name x))
                                          (toLowerCase "")) l = l).
  { intros A name l. apply forallb_filter_id, forallb_forall.
    intros x _. rewrite He. apply str_includes_empty. }
  split; [apply Hall | split; [apply Hall |]].
  intros Hp. unfold filteredTargets. cbv zeta. rewrite Hp.
  cbn [List.length Nat.ltb Nat.leb]. apply Hall.
Qed.

Lemma empty_search_lists_all_witness :
  filteredClients lower demo "" = clients demo
  /\ filteredPrograms lower demo "" = allPrograms demo
  /\ (programIds default_filters = [] ->
        filteredTargets lower demo default_filters "" = allTargets demo).
Proof.
  apply (empty_search_lists_all lower demo default_filters).
  reflexivity.
Defined.

(** The search ignores the case of ASCII letters on the data set. *)
Example search_ignores_case :
  map Target.id (filteredTargets lower demo two_clients "REQUEST")
  = ["p1-t1"; "p1-t2"]
  /\ map Client.name (filteredClients lower demo "liam") = ["Liam Smith"].
Proof. split; reflexivity. Qed.

(** X20.  The category and therapist options are the distinct values of the
    full reference tables, each listed once; they do not depend on the
    Filter Specification. *)
Theorem facet_options (db : Data) :
  (NoDup (uniqueCategories db)
   /\ forall c, In c (uniqueCategories db)
                <-> exists p, In p (allPrograms db) /\ Program.category p = c)
  /\ (NoDup (uniqueTherapists db)
      /\ forall th, In th (uniqueTherapists db)
                    <-> exists c, In c (clients db) /\ Client.therapist c = th).
Proof.
  unfold uniqueCategories, uniqueTherapists.
  split; (split; [apply Set_of_NoDup |]).
  - intros c. rewrite Set_of_In, in_map_iff. split.
    + intros [p [Hp Hin]]. eauto.
    + intros [p [Hin Hp]]. eauto.
  - intros th. rewrite Set_of_In, in_map_iff. split.
    + intros [c [Hc Hin]]. eauto.
    + intros [c [Hin Hc]]. eauto.
Qed.

(** ** Data generator *)

Lemma floor_scaled (r : Q) (n : Z) :
  (0 <= r /\ r < 1)%Q -> (0 < n)%Z ->
  (0 <= Qfloor (r * inject_Z n) < n)%Z.
Proof.
  intros [H0 H1] Hn.
  assert (Hq : (0 < inject_Z n)%Q).
  { change 0%Q with (inject_Z 0). now rewrite <- Zlt_Qlt. }
  split.
  - rewrite <- (Qfloor_Z 0). apply Qfloor_resp_le.
    apply Qmult_le_0_compat; [assumption | now apply Qlt_le_weak].
  - rewrite Zlt_Qlt. apply Qle_lt_trans with (r * inject_Z n)%Q.
    + apply Qfloor_le.
    + setoid_replace (inject_Z n) with (1 * inject_Z n)%Q at 2
        by (now rewrite Qmult_1_l).
      now apply Qmult_lt_compat_r.
Qed.

Lemma all_distinct_NoDup (l : list string) :
  all_distinct l = true -> NoDup l.
Proof.
  induction l as [|x l IH]; simpl; intros H; constructor.
  - apply andb_true_iff in H. destruct H as [H _].
    apply negb_true_iff in H. intros Hin. apply includes_In in Hin. congruence.
  - apply IH. apply andb_true_iff in H. tauto.
Qed.

Lemma digits_inj (a b : Z) :
  (0 < a)%Z -> (0 < b)%Z -> digits a = digits b -> a = b.
Proof.
  intros Ha Hb H. unfold digits in H.
  assert (Hnil : forall z, (0 < z)%Z -> N.to_uint (Z.to_N z) <> Decimal.Nil).
  { intros z Hz. destruct z as [|p|p]; try lia. simpl.
    apply DecimalPos.Unsigned.to_uint_nonnil. }
  assert (Hu : N.to_uint (Z.to_N a) = N.to_uint (Z.to_N b)).
  { pose proof (DecimalString.NilZero.usu _ (Hnil a Ha)) as Ua.
    pose proof (DecimalString.NilZero.usu _ (Hnil b Hb)) as Ub.
    rewrite H in Ua. congruence. }
  apply DecimalN.Unsigned.to_uint_inj in Hu. lia.
Qed.

Lemma ordinal_inj (i j : nat) : MockData.ordinal i = MockData.ordinal j -> i = j.
Proof.
  unfold MockData.ordinal. intros H. apply digits_inj in H; lia.
Qed.

Lemma append_inj_r (p a b : string) : (p ++ a)%string = (p ++ b)%string -> a = b.
Proof.
  induction p as [|c p IH]; simpl; intros H; [assumption |].
  injection H as H. now apply IH.
Qed.

Lemma NoDup_map_ordinal (f : string -> string) (i n : nat) :
  (forall a b, f a = f b -> a = b) ->
  NoDup (map (fun j => f (MockData.ordinal j)) (seq i n)).
Proof.
  intros Hf. revert i. induction n as [|n IH]; intros i; simpl; constructor.
  - intros Hin. apply in_map_iff in Hin. destruct Hin as [j [Hj Hin]].
    apply Hf, ordinal_inj in Hj. apply in_seq in Hin. lia.
  - apply IH.
Qed.

Section GeneratorFacts.
Variable random : nat -> Q.
Hypothesis random_range : MockData.unit_interval random.

Lemma targets_from_spec (program : Program.t) (templates : list string)
    (n i k : nat) :
  snd (MockData.targets_from random program templates i n k) = (k + 2 * n)%nat
  /\ map Target.id (fst (MockData.targets_from random program templates i n k))
     = map (fun j => (Program.id program ++ "-t" ++ MockData.ordinal j)%string)
           (seq i n)
  /\ Forall (target_in_contract program)
            (fst (MockData.targets_from random program templates i n k)).
Proof.
  revert i k. induction n as [|n IH]; intros i k.
  - simpl. repeat split; [lia | constructor].
  - cbn [MockData.targets_from]. unfold MockData.gen_bind, MockData.Math_random.
    specialize (IH (S i) (S (S k))).
    destruct (MockData.targets_from random program templates (S i) n (S (S k)))
      as [rest k'] eqn:E.
    cbn [fst snd] in *. destruct IH as (Hk & Hids & Hall).
    unfold MockData.gen_ret. cbn [fst snd map seq].
    split; [lia | split; [now rewrite Hids |]].
    constructor; [| assumption].
    unfold target_in_contract. cbn [Target.programId Target.mastery
                                     Target.successRate Target.trials].
    destruct (random_range k) as [H0 H1].
    split; [reflexivity | split; [| split; [reflexivity |]]].
    + split.
      * apply Qmult_le_0_compat; [assumption | discriminate].
      * setoid_replace 100%Q with (1 * 100)%Q at 2 by reflexivity.
        apply Qmult_lt_compat_r; [reflexivity | assumption].
    + pose proof (floor_scaled (random (S k)) 200 (random_range (S k))) as Hf.
      change (inject_Z 200) with 200%Q in Hf. lia.
Qed.

Lemma flatMap_gen_In {A B} (f : A -> MockData.Gen (list B)) (l : list A)
    (k : nat) (y : B) :
  In y (fst (MockData.flatMap_gen f l k)) ->
  exists x k', In x l /\ In y (fst (f x k')).
Proof.
  revert k. induction l as [|x l IH]; intros k; simpl.
  - intros [].
  - unfold MockData.gen_bind, MockData.gen_ret.
    destruct (f x k) as [ys k1] eqn:E1.
    destruct (MockData.flatMap_gen f l k1) as [rest k2] eqn:E2.
    cbn [fst]. intros Hin. apply in_app_or in Hin. destruct Hin as [Hin | Hin].
    + exists x, k. rewrite E1. split; [now left | assumption].
    + destruct (IH k1 ltac:(rewrite E2; exact Hin)) as [x' [k' [Hx Hy]]].
      exists x', k'. split; [now right | assumption].
Qed.

Lemma client_of_spec (Date_local : Z -> Z -> Z -> Z) (name : string)
    (i k : nat) :
  exists c,
    MockData.client_of random Date_local name i k = (Some c, (k + 4)%nat)
    /\ Client.id c = ("c" ++ MockData.ordinal i)%string
    /\ Client.name c = name
    /\ Client.status c = status_at i
    /\ client_in_contract c.
Proof.
  unfold MockData.client_of, MockData.gen_bind, MockData.Math_random,
    MockData.gen_ret.
  pose proof (floor_scaled (random (S (S (S k)))) 7
                (random_range (S (S (S k)))) eq_refl) as Hth.
  pose proof (floor_scaled (random k) 10 (random_range k) eq_refl) as Hage.
  change (inject_Z (Z.of_nat (List.length MockData.therapists)))
    with (inject_Z 7).
  change (inject_Z 10) with 10%Q in Hage.
  set (idx := Qfloor (random (S (S (S k))) * inject_Z 7)) in *.
  unfold MockData.array_at.
  destruct (idx <? 0)%Z eqn:Eneg; [apply Z.ltb_lt in Eneg; lia |].
  destruct (nth_error MockData.therapists (Z.to_nat idx)) as [th|] eqn:Enth.
  - eexists. split; [f_equal; lia |].
    cbn [Client.id Client.name Client.status Client.therapist Client.age].
    repeat split; try reflexivity.
    + now apply nth_error_In in Enth.
    + cbn [Client.age]. lia.
    + cbn [Client.age]. lia.
  - apply nth_error_None in Enth. simpl in Enth. lia.
Qed.

Lemma clients_from_spec (Date_local : Z -> Z -> Z -> Z) (names : list string)
    (i k : nat) :
  exists cs,
    MockData.clients_from random Date_local names i k
      = (map Some cs, (k + 4 * List.length names)%nat)
    /\ map Client.id cs
       = map (fun j => ("c" ++ MockData.ordinal j)%string)
             (seq i (List.length names))
    /\ map Client.name cs = names
    /\ map Client.status cs = map status_at (seq i (List.length names))
    /\ Forall client_in_contract cs.
Proof.
  revert i k. induction names as [|name names IH]; intros i k.
  - exists []. simpl. unfold MockData.gen_ret. repeat split; [f_equal; lia |].
    constructor.
  - cbn [MockData.clients_from]. unfold MockData.gen_bind at 1.
    destruct (client_of_spec Date_local name i k)
      as [c (Ec & Hid & Hname & Hst & Hc)].
    rewrite Ec. unfold MockData.gen_bind.
    destruct (IH (S i) (k + 4)%nat) as [cs (Ecs & Hids & Hnames & Hsts & Hall)].
    rewrite Ecs. unfold MockData.gen_ret. exists (c :: cs).
    cbn [map List.length seq].
    split; [f_equal; lia |].
    split; [now rewrite Hid, Hids |].
    split; [now rewrite Hname, Hnames |].
    split; [now rewrite Hst, Hsts |].
    now constructor.
Qed.
End GeneratorFacts.

Lemma demo_random_unit : MockData.unit_interval MockData.demo_random.
Proof.
  intros k. unfold MockData.demo_random.
  pose proof (Nat.mod_upper_bound k 7 ltac:(discriminate)) as Hm.
  set (m := (k mod 7)%nat) in *.
  unfold Qdiv, Qmult, Qinv, Qle, Qlt. simpl. lia.
Qed.

Lemma find_by_id {A} (id : A -> string) (l : list A) (x : A) :
  NoDup (map id l) -> In x l -> find (fun y => id y =? id x) l = Some x.
Proof.
  induction l as [|y l IH]; intros Hnd Hin; [destruct Hin |].
  simpl in *. inversion Hnd as [|? ? Hy Hnd']; subst.
  destruct Hin as [-> | Hin].
  - now rewrite String.eqb_refl.
  - destruct (id y =? id x) eqn:E.
    + apply String.eqb_eq in E. exfalso. apply Hy. rewrite E. now apply in_map.
    + now apply IH.
Qed.

(** X21.  For a program and any outcome of [Math.random] in [[0, 1)],
    [generateTargetsForProgram] returns exactly [targetCount] targets with
    the ids [<program id>-t1], [-t2], ... (pairwise distinct), each
    pointing back to the program, with a mastery in [[0, 100)] that is
    also its success rate and between 50 and 249 trials; it draws two
    random numbers per target. *)
Theorem generateTargetsForProgram_contract (random : nat -> Q)
    (program : Program.t) (k : nat) :
  MockData.unit_interval random ->
  let targets := fst (MockData.generateTargetsForProgram random program k) in
  List.length targets = N.to_nat (Program.targetCount program)
  /\ snd (MockData.generateTargetsForProgram random program k)
     = (k + 2 * N.to_nat (Program.targetCount program))%nat
  /\ map Target.id targets
     = map (fun j => (Program.id program ++ "-t" ++ MockData.ordinal j)%string)
           (seq 0 (N.to_nat (Program.targetCount program)))
  /\ NoDup (map Target.id targets)
  /\ forall t, In t targets -> target_in_contract program t.
Proof.
  intros Hr targets. unfold targets, MockData.generateTargetsForProgram. cbv zeta.
  match goal with
  | |- context [MockData.targets_from random program ?tpl 0 ?n k] =>
      destruct (targets_from_spec random Hr program tpl n 0%nat k)
        as (Hk & Hids & Hall)
  end.
  split; [| split; [exact Hk | split; [exact Hids | split]]].
  - rewrite <- (length_map Target.id), Hids, length_map. apply length_seq.
  - rewrite Hids.
    apply (NoDup_map_ordinal
             (fun o => (Program.id program ++ "-t" ++ o)%string)).
    intros a b H. apply append_inj_r in H. now apply append_inj_r in H.
  - now apply Forall_forall.
Qed.

Lemma generateTargetsForProgram_contract_witness :
  List.length
    (fst (MockData.generateTargetsForProgram MockData.demo_random
            (Program.mk "p6" "Hand Washing" "Self-Care" 5) 0%nat)) = 5%nat.
Proof.
  apply (generateTargetsForProgram_contract MockData.demo_random
           (Program.mk "p6" "Hand Washing" "Self-Care" 5) 0%nat).
  exact demo_random_unit.
Defined.

Lemma generateTargets_ids (random : nat -> Q) (k : nat) :
  map Target.id (fst (MockData.generateTargets random k))
  = generated_target_ids.
Proof. reflexivity. Qed.

(** X22.  For any outcome of [Math.random] in [[0, 1)], [generateTargets]
    returns 132 targets with pairwise distinct ids; each belongs to one
    of the twelve programs and has a mastery in [[0, 100)]; and in a
    reference table made of these targets every target is found under
    its own id. *)
Theorem generateTargets_contract (random : nat -> Q) (k : nat) :
  MockData.unit_interval random ->
  let targets := fst (MockData.generateTargets random k) in
  List.length targets = 132%nat
  /\ NoDup (map Target.id targets)
  /\ (forall t, In t targets ->
        exists p, In p MockData.programs /\ target_in_contract p t)
  /\ (forall db t, allTargets db = targets -> In t targets ->
        find_target db (Target.id t) = Some t).
Proof.
  intros Hr targets.
  assert (Hnd : NoDup (map Target.id targets)).
  { unfold targets. rewrite generateTargets_ids.
    apply all_distinct_NoDup. vm_compute. reflexivity. }
  split; [| split; [exact Hnd | split]].
  - unfold targets. rewrite <- (length_map Target.id), generateTargets_ids.
    reflexivity.
  - intros t Hin. unfold targets, MockData.generateTargets in Hin.
    apply flatMap_gen_In in Hin. destruct Hin as [p [k' [Hp Hin]]].
    exists p. split; [assumption |].
    unfold MockData.generateTargetsForProgram in Hin. cbv zeta in Hin.
    match type of Hin with
    | context [MockData.targets_from random p ?tpl 0 ?n k'] =>
        destruct (targets_from_spec random Hr p tpl n 0%nat k')
          as (_ & _ & Hall)
    end.
    rewrite Forall_forall in Hall. now apply Hall.
  - intros db t Hdb Hin. unfold find_target. rewrite Hdb.
    now apply find_by_id.
Qed.

Lemma generateTargets_contract_witness :
  List.length (fst (MockData.generateTargets MockData.demo_random 80%nat)) = 132%nat.
Proof.
  apply (generateTargets_contract MockData.demo_random 80%nat).
  exact demo_random_unit.
Defined.

(** X23.  For any outcome of [Math.random] in [[0, 1)], [generateClients]
    returns twenty well-formed clients named after [clientNames] in
    order, with ids c1 to c20; the first seventeen are Active, the next
    two Inactive and the last one Discharged; every therapist is one of
    the seven names and every age lies between 3 and 12.  It draws four
    random numbers per client. *)
Theorem generateClients_contract (random : nat -> Q)
    (Date_local : Z -> Z -> Z -> Z) (k : nat) :
  MockData.unit_interval random ->
  exists cs,
    MockData.generateClients random Date_local k
      = (map Some cs, (k + 80)%nat)
    /\ map Client.id cs
       = ["c1"; "c2"; "c3"; "c4"; "c5"; "c6"; "c7"; "c8"; "c9"; "c10";
          "c11"; "c12"; "c13"; "c14"; "c15"; "c16"; "c17"; "c18"; "c19";
          "c20"]
    /\ map Client.name cs = MockData.clientNames
    /\ map Client.status cs
       = repeat Active 17 ++ repeat Inactive 2 ++ [Discharged]
    /\ forall c, In c cs -> client_in_contract c.
Proof.
  intros Hr.
  destruct (clients_from_spec random Hr Date_local MockData.clientNames 0%nat k)
    as [cs (E & Hids & Hnames & Hsts & Hall)].
  exists cs. split; [exact E | split; [exact Hids | split; [exact Hnames |]]].
  split; [exact Hsts | now apply Forall_forall].
Qed.

Lemma generateClients_contract_witness :
  exists cs,
    MockData.generateClients MockData.demo_random MockData.demo_Date_local 0%nat
      = (map Some cs, 80%nat)
    /\ map Client.id cs
       = ["c1"; "c2"; "c3"; "c4"; "c5"; "c6"; "c7"; "c8"; "c9"; "c10";
          "c11"; "c12"; "c13"; "c14"; "c15"; "c16"; "c17"; "c18"; "c19";
          "c20"]
    /\ map Client.name cs = MockData.clientNames
    /\ map Client.status cs
       = repeat Active 17 ++ repeat Inactive 2 ++ [Discharged]
    /\ forall c, In c cs -> client_in_contract c.
Proof.
  apply (generateClients_contract MockData.demo_random
           MockData.demo_Date_local 0%nat).
  exact demo_random_unit.
Defined.

(** X24.  For any outcome of [Math.random] in [[0, 1)], a generated session
    has between 5 and 19 trials, split into correct and incorrect ones,
    and lasts between 15 and 44 minutes; it carries the ids of its
    client, program and target, and four random numbers are drawn.  In
    particular no generated session is without trials. *)
Theorem session_of_contract (random : nat -> Q) (startDate endDate : Z)
    (client : Client.t) (program : Program.t) (target : Target.t) (k : nat) :
  MockData.unit_interval random ->
  let dp := fst (MockData.session_of random startDate endDate client program
                   target k) in
  (5 <= DataPoint.correct dp + DataPoint.incorrect dp <= 19)%N
  /\ (15 <= DataPoint.sessionDuration dp <= 44)%N
  /\ DataPoint.clientId dp = Client.id client
  /\ DataPoint.programId dp = Program.id program
  /\ DataPoint.targetId dp = Target.id target
  /\ snd (MockData.session_of random startDate endDate client program
            target k) = (k + 4)%nat.
Proof.
  intros Hr dp. unfold dp, MockData.session_of, MockData.gen_bind,
    MockData.Math_random, MockData.gen_ret. cbv zeta.
  cbn [fst snd DataPoint.correct DataPoint.incorrect DataPoint.sessionDuration
       DataPoint.clientId DataPoint.programId DataPoint.targetId].
  pose proof (floor_scaled (random (S k)) 15 (Hr (S k)) eq_refl) as Ht.
  pose proof (floor_scaled (random (S (S (S k)))) 30 (Hr (S (S (S k)))) eq_refl)
    as Hd.
  change (inject_Z 15) with 15%Q in Ht. change (inject_Z 30) with 30%Q in Hd.
  set (trials := (Qfloor (random (S k) * 15) + 5)%Z) in *.
  match goal with
  | |- context [Z.min trials ?c] => generalize c; intros correct
  end.
  repeat split; try reflexivity; lia.
Qed.

Lemma session_of_contract_witness :
  (5 <= 12 + 1 <= 19)%N
  /\ (15 <= 40 <= 44)%N
  /\ "c1" = "c1" /\ "p1" = "p1" /\ "p1-t1" = "p1-t1"
  /\ 7%nat = (3 + 4)%nat.
Proof.
  apply (session_of_contract MockData.demo_random 1704067200000 1733011200000
           (Client.mk "c1" "Emma Johnson" 6 1577836800000 "Dr. Sarah Mitchell"
                      Active)
           (Program.mk "p1" "Requesting" "Communication" 12)
           (Target.mk "p1-t1" "p1" "Request for water" (171 # 2) 120 (171 # 2))
           3%nat).
  exact demo_random_unit.
Defined.

(** X25.  The Event Log [generateDataPoints] returns is in chronological order
    and holds exactly the sessions that were generated. *)
Theorem sort_by_date_chronological (dataPoints : list DataPoint.t) :
  StronglySorted not_later (MockData.sort_by_date dataPoints)
  /\ Permutation (MockData.sort_by_date dataPoints) dataPoints.
Proof.
  unfold MockData.sort_by_date. split; [| apply js_sort_perm].
  apply StronglySorted_weaken
    with (R := ascending (fun d => inject_Z (DataPoint.date d))).
  - intros x y _ _ H. unfold ascending in H. unfold not_later.
    now rewrite Zle_Qle.
  - apply js_sort_ascending. intros x y _ _. unfold of_Z.
    rewrite js_gt0_sub. now rewrite <- Zlt_Qlt.
Qed.

(** ** Accuracy on sessions with trials *)







(** The accuracies of the data set, as the reducers report them. *)
Example accuracies_of_demo :
  map ProgramRow.accuracy (programBreakdown demo demo_events) = ["66.7"; "50.0"]
  /\ map TargetRow.accuracy (targetDrillDown demo None demo_events)
     = ["85.0"; "30.0"; "50.0"]
  /\ avgAccuracy (stats demo default_filters []) = Fin 0.
Proof. repeat split. Qed.
